(** * Course item lookup: path descent and depth-first search

    A shallow embedding of [src/app/services/item_service.py]: the linear
    scan [find_by_id], the id and path lookups built on it, and the two
    depth-first searches (nested loops, and recursion over a shared
    counter), followed by the properties the specification states about
    them. *)

From Stdlib Require Import String List Bool Arith Lia.
Import ListNotations.
Local Open Scope string_scope.
Local Open Scope list_scope.

(** ** Data model *)

(** Modelled from the spec: the classes of [app.models.item] are not part
    of the sources at hand.  The specification gives a strict four-level
    hierarchy Course -> Lab -> Task -> Step, every node carrying a string
    [id], every level but the last an ordered sequence of the level
    below. *)
Record Step := mkStep { Step_id : string }.
Record Task := mkTask { Task_id : string; steps : list Step }.
Record Lab := mkLab { Lab_id : string; tasks : list Task }.
Record Course := mkCourse { Course_id : string; labs : list Lab }.

(** The base class [Item]: a value of any of the four kinds.  The
    constructors are the upcasts; [match item: case Course(): ...] of the
    source is a [match] on them. *)
Inductive Item :=
| ICourse (course : Course)
| ILab (lab : Lab)
| ITask (task : Task)
| IStep (step : Step).

(** The bound [T: Item] of the generic functions: all a generic function
    may use of a [T] is its [id]. *)
Class Identifiable (T : Type) := { id : T -> string }.
Arguments id {T _} _ : simpl never.

#[export] Instance Step_Identifiable : Identifiable Step := {| id := Step_id |}.
#[export] Instance Task_Identifiable : Identifiable Task := {| id := Task_id |}.
#[export] Instance Lab_Identifiable : Identifiable Lab := {| id := Lab_id |}.
#[export] Instance Course_Identifiable : Identifiable Course := {| id := Course_id |}.
#[export] Instance Item_Identifiable : Identifiable Item :=
  {| id := fun item =>
       match item with
       | ICourse course => id course
       | ILab lab => id lab
       | ITask task => id task
       | IStep step => id step
       end |}.

(** Modelled from the spec: [app.models.order] is not part of the sources
    at hand; the specification gives a closed enumeration of two
    variants. *)
Inductive Order := PreOrder | PostOrder.

(** ** Path lookup *)

(** [find_by_id]: the [for] loop returns at the first item whose id is
    the one looked for, and [None] when the loop runs out. *)
Fixpoint find_by_id {T : Type} `{Identifiable T}
    (items : list T) (item_id : string) : option T :=
  match items with
  | [] => None
  | item :: items' =>
      if id item =? item_id then Some item else find_by_id items' item_id
  end.

Definition get_course_by_id (courses : list Course) (course_id : string)
    : option Course :=
  find_by_id courses course_id.

Definition get_lab_by_id (course : Course) (lab_id : string) : option Lab :=
  find_by_id (labs course) lab_id.

Definition get_task_by_id (lab : Lab) (task_id : string) : option Task :=
  find_by_id (tasks lab) task_id.

Definition get_step_by_id (task : Task) (step_id : string) : option Step :=
  find_by_id (steps task) step_id.

Definition get_course_by_path (courses : list Course) (course_id : string)
    : option Course :=
  get_course_by_id courses course_id.

Definition get_lab_by_path (courses : list Course) (course_id lab_id : string)
    : option Lab :=
  match get_course_by_path courses course_id with
  | Some course => get_lab_by_id course lab_id
  | None => None
  end.

Definition get_task_by_path (courses : list Course)
    (course_id lab_id task_id : string) : option Task :=
  match get_lab_by_path courses course_id lab_id with
  | Some lab => get_task_by_id lab task_id
  | None => None
  end.

Definition get_step_by_path (courses : list Course)
    (course_id lab_id task_id step_id : string) : option Step :=
  match get_task_by_path courses course_id lab_id task_id with
  | Some task => get_step_by_id task step_id
  | None => None
  end.

(** ** Full-tree search *)

Record FoundItem := mkFoundItem { item : Item; visited_nodes : nat }.

(** A [for] loop whose body may [return]: the body is given the counter,
    and yields either a result to return at once or nothing, with the
    counter as it left it. *)
Fixpoint for_each {A : Type} (body : A -> nat -> option FoundItem * nat)
    (xs : list A) (counter : nat) : option FoundItem * nat :=
  match xs with
  | [] => (None, counter)
  | x :: xs' =>
      match body x counter with
      | (Some found, counter') => (Some found, counter')
      | (None, counter') => for_each body xs' counter'
      end
  end.

(** [get_item_by_id_dfs_iterative], with the counter it ends on made
    visible next to the value returned. *)
Definition get_item_by_id_dfs_iterative_counted
    (courses : list Course) (item_id : string) (order : Order)
    : option FoundItem * nat :=
  let counter := 0 in
  match order with
  | PreOrder =>
      for_each (fun course counter =>
        let counter := counter + 1 in
        if id course =? item_id
        then (Some (mkFoundItem (ICourse course) counter), counter)
        else
          for_each (fun lab counter =>
            let counter := counter + 1 in
            if id lab =? item_id
            then (Some (mkFoundItem (ILab lab) counter), counter)
            else
              for_each (fun task counter =>
                let counter := counter + 1 in
                if id task =? item_id
                then (Some (mkFoundItem (ITask task) counter), counter)
                else
                  for_each (fun step counter =>
                    let counter := counter + 1 in
                    if id step =? item_id
                    then (Some (mkFoundItem (IStep step) counter), counter)
                    else (None, counter))
                  (steps task) counter)
              (tasks lab) counter)
          (labs course) counter)
      courses counter
  | PostOrder => (None, counter)
  end.

Definition get_item_by_id_dfs_iterative
    (courses : list Course) (item_id : string) (order : Order)
    : option FoundItem :=
  fst (get_item_by_id_dfs_iterative_counted courses item_id order).

(** [get_item_by_id_dfs_recursive_], the inner function.  [visited_nodes]
    is the [nonlocal] counter, passed in and handed back; [depth] bounds
    the nesting of calls, and [None] is a run that would nest deeper.
    [go_items] is the value [operator.call] leaves under that name: the
    search of the children the kind of [item] has, nothing for a Step. *)
Fixpoint get_item_by_id_dfs_recursive_ (depth : nat) (items : list Item)
    (item_id : string) (order : Order) (visited_nodes : nat) {struct depth}
    : option (option FoundItem * nat) :=
  match depth with
  | 0 => None
  | S depth' =>
      let go (items : list Item) (visited_nodes : nat) :=
        get_item_by_id_dfs_recursive_ depth' items item_id order visited_nodes in
      (fix for_item (items : list Item) (visited_nodes : nat) {struct items}
         : option (option FoundItem * nat) :=
         match items with
         | [] => Some (None, visited_nodes)
         | item :: items' =>
             let pre :=
               match order with
               | PreOrder =>
                   let visited_nodes := visited_nodes + 1 in
                   if id item =? item_id
                   then (Some (mkFoundItem item visited_nodes), visited_nodes)
                   else (None, visited_nodes)
               | _ => (None, visited_nodes)
               end in
             match pre with
             | (Some found, visited_nodes) => Some (Some found, visited_nodes)
             | (None, visited_nodes) =>
                 let go_items :=
                   match item with
                   | ICourse course => go (map ILab (labs course)) visited_nodes
                   | ILab lab => go (map ITask (tasks lab)) visited_nodes
                   | ITask task => go (map IStep (steps task)) visited_nodes
                   | IStep _ => Some (None, visited_nodes)
                   end in
                 match go_items with
                 | None => None
                 | Some (Some found, visited_nodes) =>
                     Some (Some found, visited_nodes)
                 | Some (None, visited_nodes) =>
                     let post :=
                       match order with
                       | PostOrder =>
                           let visited_nodes := visited_nodes + 1 in
                           if id item =? item_id
                           then (Some (mkFoundItem item visited_nodes),
                                 visited_nodes)
                           else (None, visited_nodes)
                       | _ => (None, visited_nodes)
                       end in
                     match post with
                     | (Some found, visited_nodes) =>
                         Some (Some found, visited_nodes)
                     | (None, visited_nodes) => for_item items' visited_nodes
                     end
                 end
             end
         end) items visited_nodes
  end.

(** The hierarchy has four levels, and a search of a forest never nests
    its calls deeper. *)
Definition max_depth : nat := 4.

(** [get_item_by_id_dfs_recursive], with the counter it ends on made
    visible: [visited_nodes] starts at 0 and the inner function runs.
    With room for [max_depth] nested calls the run is never cut short
    ([dfs_recursive_counted_scan] below), so the [None] branch of
    [get_item_by_id_dfs_recursive] is never taken. *)
Definition get_item_by_id_dfs_recursive_counted
    (items : list Item) (item_id : string) (order : Order)
    : option (option FoundItem * nat) :=
  let visited_nodes := 0 in
  get_item_by_id_dfs_recursive_ max_depth items item_id order visited_nodes.

Definition get_item_by_id_dfs_recursive
    (items : list Item) (item_id : string) (order : Order)
    : option FoundItem :=
  match get_item_by_id_dfs_recursive_counted items item_id order with
  | Some (found, _) => found
  | None => None
  end.

(** ** Entry point *)

(** How a call ends: it returns a value, or it raises an exception that
    nothing in this module catches. *)
Inductive Outcome (Exn A : Type) : Type :=
| Returned (value : A)
| Raised (exn : Exn).

Arguments Returned {Exn A} value.
Arguments Raised {Exn A} exn.

Section EntryPoint.

(** What [read_courses] calls lies outside this module and is taken as
    given: the path [settings.course_items_path], [open] on a path,
    [json.load] on the open file, and [CoursesAdapter.validate_python] on
    the value read.  Each of the three calls may raise; [Exn] is the type
    of what is raised. *)
Variable Exn : Type.
Variable Handle : Type.
Variable Json : Type.
Variable course_items_path : string.
Variable open_file : string -> Outcome Exn Handle.
Variable json_load : Handle -> Outcome Exn Json.
Variable validate_python : Json -> Outcome Exn (list Course).

(** [read_courses]: the file is opened, its content read as JSON, and the
    value validated as a list of courses; an exception raised on the way
    ends the call. *)
Definition read_courses (_ : unit) : Outcome Exn (list Course) :=
  match open_file course_items_path with
  | Raised exn => Raised exn
  | Returned handle =>
      match json_load handle with
      | Raised exn => Raised exn
      | Returned raw => validate_python raw
      end
  end.

(** [get_item_by_id]: the forest is loaded first, whatever the order; an
    exception of the load ends the call before any search. *)
Definition get_item_by_id (item_id : string) (order : Order)
    : Outcome Exn (option FoundItem) :=
  match read_courses tt with
  | Raised exn => Raised exn
  | Returned courses =>
      Returned (get_item_by_id_dfs_iterative courses item_id order)
  end.

End EntryPoint.

Arguments read_courses {Exn Handle Json} course_items_path open_file
  json_load validate_python _.
Arguments get_item_by_id {Exn Handle Json} course_items_path open_file
  json_load validate_python item_id order.

(** ** The example forest of the specification *)

Definition S1 : Step := mkStep "S1".
Definition T1 : Task := mkTask "T1" [S1].
Definition L1 : Lab := mkLab "L1" [T1].
Definition C1 : Course := mkCourse "C1" [L1].

(** ** The order of a traversal, as a list *)

(** A node placed before or after the nodes below it. *)
Definition around (order : Order) (node : Item) (below : list Item)
    : list Item :=
  match order with
  | PreOrder => node :: below
  | PostOrder => below ++ [node]
  end.

Definition task_nodes (order : Order) (task : Task) : list Item :=
  around order (ITask task) (map IStep (steps task)).

Definition lab_nodes (order : Order) (lab : Lab) : list Item :=
  around order (ILab lab) (flat_map (task_nodes order) (tasks lab)).

Definition course_nodes (order : Order) (course : Course) : list Item :=
  around order (ICourse course) (flat_map (lab_nodes order) (labs course)).

Definition item_nodes (order : Order) (item : Item) : list Item :=
  match item with
  | ICourse course => course_nodes order course
  | ILab lab => lab_nodes order lab
  | ITask task => task_nodes order task
  | IStep step => [IStep step]
  end.

(** Every node of a forest, once, in the order a traversal meets them. *)
Definition forest_nodes (order : Order) (items : list Item) : list Item :=
  flat_map (item_nodes order) items.

(** The number of nodes, level by level. *)
Definition count_task (task : Task) : nat := 1 + length (steps task).
Definition count_lab (lab : Lab) : nat :=
  1 + list_sum (map count_task (tasks lab)).
Definition count_course (course : Course) : nat :=
  1 + list_sum (map count_lab (labs course)).
Definition count_item (item : Item) : nat :=
  match item with
  | ICourse course => count_course course
  | ILab lab => count_lab lab
  | ITask task => count_task task
  | IStep _ => 1
  end.
Definition count_nodes (items : list Item) : nat :=
  list_sum (map count_item items).

(** The children of a node, and the number of levels from it down. *)
Definition children (item : Item) : list Item :=
  match item with
  | ICourse course => map ILab (labs course)
  | ILab lab => map ITask (tasks lab)
  | ITask task => map IStep (steps task)
  | IStep _ => []
  end.

Definition rank (item : Item) : nat :=
  match item with
  | ICourse _ => 4
  | ILab _ => 3
  | ITask _ => 2
  | IStep _ => 1
  end.

(** An id is present in a forest when one of its nodes carries it. *)
Definition present (item_id : string) (items : list Item) : Prop :=
  exists node, In node (forest_nodes PreOrder items) /\ id node = item_id.

(** A linear scan of a list of nodes that counts as it goes: the search
    every traversal comes down to. *)
Fixpoint scan (nodes : list Item) (item_id : string) (counter : nat)
    : option FoundItem * nat :=
  match nodes with
  | [] => (None, counter)
  | node :: nodes' =>
      let counter := counter + 1 in
      if id node =? item_id
      then (Some (mkFoundItem node counter), counter)
      else scan nodes' item_id counter
  end.

(** The chains of id lookups the path lookups are set against: each
    lookup applied to the result of the one before, absent carried on. *)
Definition and_then {A B : Type} (found : option A) (next : A -> option B)
    : option B :=
  match found with
  | Some x => next x
  | None => None
  end.

Definition lab_by_id_chain (courses : list Course) (course_id lab_id : string)
    : option Lab :=
  and_then (get_course_by_id courses course_id) (fun course =>
  get_lab_by_id course lab_id).

Definition task_by_id_chain (courses : list Course)
    (course_id lab_id task_id : string) : option Task :=
  and_then (get_course_by_id courses course_id) (fun course =>
  and_then (get_lab_by_id course lab_id) (fun lab =>
  get_task_by_id lab task_id)).

Definition step_by_id_chain (courses : list Course)
    (course_id lab_id task_id step_id : string) : option Step :=
  and_then (get_course_by_id courses course_id) (fun course =>
  and_then (get_lab_by_id course lab_id) (fun lab =>
  and_then (get_task_by_id lab task_id) (fun task =>
  get_step_by_id task step_id))).


(** ** The searches over a store of objects *)

Module Heap.

(** A reference to an object. *)
Definition ref := nat.

Inductive Kind := KCourse | KLab | KTask | KStep.

(** An object of one of the four classes: its class, its [id], and the
    references its list attribute holds ([labs], [tasks] or [steps];
    none for a Step). *)
Record Obj := mkObj { kind : Kind; obj_id : string; below : list ref }.

(** What a run can read and write: the objects, by reference, and the
    counter of the search. *)
Record State := mkState { objects : ref -> Obj; counter : nat }.

Definition Run (A : Type) : Type := State -> A * State.

Definition ret {A : Type} (a : A) : Run A := fun st => (a, st).

Definition bind {A B : Type} (m : Run A) (k : A -> Run B) : Run B :=
  fun st => let (a, st') := m st in k a st'.

Notation "x <- m ;; k" := (bind m (fun x => k))
  (at level 61, m at next level, right associativity).

(** The attribute reads of the source. *)
Definition read_id (r : ref) : Run string :=
  fun st => (obj_id (objects st r), st).

Definition read_below (r : ref) : Run (list ref) :=
  fun st => (below (objects st r), st).

Definition read_kind (r : ref) : Run Kind :=
  fun st => (kind (objects st r), st).

(** The two writes of the source, both to the counter: [counter = 0]
    and [counter += 1], the latter yielding the new value. *)
Definition reset : Run unit :=
  fun st => (tt, mkState (objects st) 0).

Definition count : Run nat :=
  fun st => let c := counter st + 1 in (c, mkState (objects st) c).

(** A [for] loop whose body may [return]. *)
Fixpoint for_each {A R : Type} (body : A -> Run (option R)) (xs : list A)
    : Run (option R) :=
  match xs with
  | [] => ret None
  | x :: xs' =>
      returned <- body x ;;
      match returned with
      | Some r => ret (Some r)
      | None => for_each body xs'
      end
  end.

Definition find_by_id (items : list ref) (item_id : string)
    : Run (option ref) :=
  for_each (fun item =>
    i <- read_id item ;;
    if i =? item_id then ret (Some item) else ret None)
  items.

Definition get_course_by_id (courses : list ref) (course_id : string)
    : Run (option ref) :=
  find_by_id courses course_id.

Definition get_lab_by_id (course : ref) (lab_id : string) : Run (option ref) :=
  labs <- read_below course ;; find_by_id labs lab_id.

Definition get_task_by_id (lab : ref) (task_id : string) : Run (option ref) :=
  tasks <- read_below lab ;; find_by_id tasks task_id.

Definition get_step_by_id (task : ref) (step_id : string) : Run (option ref) :=
  steps <- read_below task ;; find_by_id steps step_id.

Definition get_course_by_path (courses : list ref) (course_id : string)
    : Run (option ref) :=
  get_course_by_id courses course_id.

Definition get_lab_by_path (courses : list ref) (course_id lab_id : string)
    : Run (option ref) :=
  course <- get_course_by_path courses course_id ;;
  match course with
  | Some course => get_lab_by_id course lab_id
  | None => ret None
  end.

Definition get_task_by_path (courses : list ref)
    (course_id lab_id task_id : string) : Run (option ref) :=
  lab <- get_lab_by_path courses course_id lab_id ;;
  match lab with
  | Some lab => get_task_by_id lab task_id
  | None => ret None
  end.

Definition get_step_by_path (courses : list ref)
    (course_id lab_id task_id step_id : string) : Run (option ref) :=
  task <- get_task_by_path courses course_id lab_id task_id ;;
  match task with
  | Some task => get_step_by_id task step_id
  | None => ret None
  end.

(** A result holds the reference to the node matched, not a copy. *)
Record FoundItem := mkFoundItem { item : ref; visited_nodes : nat }.

Definition get_item_by_id_dfs_iterative (courses : list ref)
    (item_id : string) (order : Order) : Run (option FoundItem) :=
  _ <- reset ;;
  match order with
  | PreOrder =>
      for_each (fun course =>
        c <- count ;;
        i <- read_id course ;;
        if i =? item_id then ret (Some (mkFoundItem course c)) else
        labs <- read_below course ;;
        for_each (fun lab =>
          c <- count ;;
          i <- read_id lab ;;
          if i =? item_id then ret (Some (mkFoundItem lab c)) else
          tasks <- read_below lab ;;
          for_each (fun task =>
            c <- count ;;
            i <- read_id task ;;
            if i =? item_id then ret (Some (mkFoundItem task c)) else
            steps <- read_below task ;;
            for_each (fun step =>
              c <- count ;;
              i <- read_id step ;;
              if i =? item_id then ret (Some (mkFoundItem step c))
              else ret None)
            steps)
          tasks)
        labs)
      courses
  | PostOrder => ret None
  end.

(** [visited_nodes += 1] and the test of the id, when [order] is the
    order [here]; nothing otherwise. *)
Definition visit_if (here order : Order) (item : ref) (item_id : string)
    : Run (option FoundItem) :=
  match here, order with
  | PreOrder, PreOrder | PostOrder, PostOrder =>
      c <- count ;;
      i <- read_id item ;;
      if i =? item_id then ret (Some (mkFoundItem item c)) else ret None
  | _, _ => ret None
  end.

(** The inner function of the recursive search; [None] is a run that
    would nest its calls deeper than [depth]. *)
Fixpoint get_item_by_id_dfs_recursive_ (depth : nat) (items : list ref)
    (item_id : string) (order : Order) {struct depth}
    : Run (option (option FoundItem)) :=
  match depth with
  | 0 => ret None
  | S depth' =>
      (fix for_item (items : list ref) : Run (option (option FoundItem)) :=
         match items with
         | [] => ret (Some None)
         | item :: items' =>
             pre <- visit_if PreOrder order item item_id ;;
             match pre with
             | Some found => ret (Some (Some found))
             | None =>
                 k <- read_kind item ;;
                 go_items <-
                   match k with
                   | KStep => ret (Some None)
                   | _ =>
                       children <- read_below item ;;
                       get_item_by_id_dfs_recursive_ depth' children item_id
                         order
                   end ;;
                 match go_items with
                 | None => ret None
                 | Some (Some found) => ret (Some (Some found))
                 | Some None =>
                     post <- visit_if PostOrder order item item_id ;;
                     match post with
                     | Some found => ret (Some (Some found))
                     | None => for_item items'
                     end
                 end
             end
         end) items
  end.

Definition get_item_by_id_dfs_recursive (items : list ref)
    (item_id : string) (order : Order) : Run (option (option FoundItem)) :=
  _ <- reset ;;
  get_item_by_id_dfs_recursive_ max_depth items item_id order.

(** A computation that leaves every object as it was. *)
Definition reads_only {A : Type} (m : Run A) : Prop :=
  forall st, objects (snd (m st)) = objects st.

End Heap.


(** The example forest, stored: the references 0 to 3 hold C1, L1, T1
    and S1. *)
Definition example_objects : Heap.ref -> Heap.Obj :=
  fun r =>
    match r with
    | 0 => Heap.mkObj Heap.KCourse "C1" [1]
    | 1 => Heap.mkObj Heap.KLab "L1" [2]
    | 2 => Heap.mkObj Heap.KTask "T1" [3]
    | _ => Heap.mkObj Heap.KStep "S1" []
    end.

(** ** Stored forests *)

(** When a reference holds a node of the data model: the object is of
    the class of the node, carries its id, and its list attribute holds
    the nodes below, in order. *)
Section Represents.

Variable objs : Heap.ref -> Heap.Obj.

Definition repr_step (r : Heap.ref) (step : Step) : Prop :=
  Heap.kind (objs r) = Heap.KStep /\ Heap.obj_id (objs r) = id step.

Definition repr_task (r : Heap.ref) (task : Task) : Prop :=
  Heap.kind (objs r) = Heap.KTask /\ Heap.obj_id (objs r) = id task /\
  Forall2 repr_step (Heap.below (objs r)) (steps task).

Definition repr_lab (r : Heap.ref) (lab : Lab) : Prop :=
  Heap.kind (objs r) = Heap.KLab /\ Heap.obj_id (objs r) = id lab /\
  Forall2 repr_task (Heap.below (objs r)) (tasks lab).

Definition repr_course (r : Heap.ref) (course : Course) : Prop :=
  Heap.kind (objs r) = Heap.KCourse /\ Heap.obj_id (objs r) = id course /\
  Forall2 repr_lab (Heap.below (objs r)) (labs course).

Definition repr (r : Heap.ref) (item : Item) : Prop :=
  match item with
  | ICourse course => repr_course r course
  | ILab lab => repr_lab r lab
  | ITask task => repr_task r task
  | IStep step => repr_step r step
  end.

(** Results that match: the reference holds the node found, and the
    counts agree. *)
Definition found_rel (found_h : Heap.FoundItem) (found : FoundItem) : Prop :=
  repr (Heap.item found_h) (item found) /\
  Heap.visited_nodes found_h = visited_nodes found.

Definition result_rel (res_h : option Heap.FoundItem) (res : option FoundItem)
    : Prop :=
  match res_h, res with
  | Some found_h, Some found => found_rel found_h found
  | None, None => True
  | _, _ => False
  end.

End Represents.

Definition option_rel {A B : Type} (R : A -> B -> Prop)
    (a : option A) (b : option B) : Prop :=
  match a, b with
  | Some x, Some y => R x y
  | None, None => True
  | _, _ => False
  end.

(** A run over the store that goes as the function on values does: from
    any counter, the same counter at the end, matching results, and the
    objects as they were. *)
Definition simulates (objs : Heap.ref -> Heap.Obj)
    (m : Heap.Run (option Heap.FoundItem))
    (p : nat -> option FoundItem * nat) : Prop :=
  forall v,
    exists res_h,
      m (Heap.mkState objs v) = (res_h, Heap.mkState objs (snd (p v))) /\
      result_rel objs res_h (fst (p v)).


(** ** Notions for the further properties *)

(** A result counted from [n] nodes further on. *)
Definition recount (n : nat) (found : FoundItem) : FoundItem :=
  mkFoundItem (item found) (n + visited_nodes found).

(** No two nodes of the forest carry the same id. *)
Definition unique_ids (items : list Item) : Prop :=
  NoDup (map id (forest_nodes PreOrder items)).

(** [found] is the first node of [nodes] that carries [item_id], counted
    from 1. *)
Definition first_match (nodes : list Item) (item_id : string)
    (found : FoundItem) : Prop :=
  exists before after,
    nodes = before ++ item found :: after /\
    (forall node, In node before -> id node <> item_id) /\
    id (item found) = item_id /\
    visited_nodes found = length before + 1.

(** ** Lemmas on the scan *)

Lemma scan_app (l1 l2 : list Item) (item_id : string) (counter : nat) :
  scan (l1 ++ l2) item_id counter =
  match scan l1 item_id counter with
  | (Some found, counter') => (Some found, counter')
  | (None, counter') => scan l2 item_id counter'
  end.
Proof.
  revert counter; induction l1 as [|node l1 IH]; intros counter; simpl.
  - reflexivity.
  - destruct (id node =? item_id); [reflexivity | apply IH].
Qed.

Lemma scan_none (l : list Item) (item_id : string) (counter counter' : nat) :
  scan l item_id counter = (None, counter') ->
  counter' = counter + length l /\
  (forall node, In node l -> id node <> item_id).
Proof.
  revert counter; induction l as [|node l IH]; intros counter; simpl.
  - intros E; inversion E; split; [lia | tauto].
  - destruct (id node =? item_id) eqn:Eid; [discriminate |].
    intros E; apply IH in E as [-> Hall]; split; [lia |].
    intros node' [<- | Hin]; [now apply String.eqb_neq | now apply Hall].
Qed.

Lemma scan_some (l : list Item) (item_id : string) (counter counter' : nat)
    (found : FoundItem) :
  scan l item_id counter = (Some found, counter') ->
  exists before after,
    l = before ++ item found :: after /\
    (forall node, In node before -> id node <> item_id) /\
    id (item found) = item_id /\
    visited_nodes found = counter + length before + 1 /\
    counter' = visited_nodes found.
Proof.
  revert counter; induction l as [|node l IH]; intros counter; simpl.
  - discriminate.
  - destruct (id node =? item_id) eqn:Eid.
    + intros E; inversion E; subst; simpl.
      exists [], l; simpl; repeat split; try tauto; try lia.
      now apply String.eqb_eq.
    + intros E; apply IH in E as (before & after & -> & Hb & Hid & Hv & Hc).
      exists (node :: before), after; simpl; repeat split; try assumption; try lia.
      intros node' [<- | Hin]; [now apply String.eqb_neq | now apply Hb].
Qed.

Lemma scan_present (l : list Item) (item_id : string) (counter : nat) :
  (exists node, In node l /\ id node = item_id) ->
  exists found, scan l item_id counter = (Some found, visited_nodes found).
Proof.
  intros (node & Hin & Hid).
  destruct (scan l item_id counter) as [[found|] counter'] eqn:E.
  - exists found. apply scan_some in E as (_ & _ & _ & _ & _ & _ & ->).
    reflexivity.
  - apply scan_none in E as [_ Hall]. now apply Hall in Hin.
Qed.

(** A loop whose body scans the nodes [f x] scans them all in turn. *)
Lemma for_each_scan {A : Type} (body : A -> nat -> option FoundItem * nat)
    (f : A -> list Item) (item_id : string) (xs : list A) :
  (forall x, In x xs ->
     forall counter, body x counter = scan (f x) item_id counter) ->
  forall counter,
    for_each body xs counter = scan (flat_map f xs) item_id counter.
Proof.
  induction xs as [|x xs IH]; intros Hbody counter; simpl.
  - reflexivity.
  - rewrite scan_app, Hbody by (now left).
    destruct (scan (f x) item_id counter) as [[found|] counter'];
      [reflexivity |].
    apply IH. intros y Hy. apply Hbody. now right.
Qed.

Lemma flat_map_map {A B C : Type} (g : A -> B) (f : B -> list C)
    (l : list A) :
  flat_map f (map g l) = flat_map (fun x => f (g x)) l.
Proof.
  induction l as [|x l IH]; simpl; [reflexivity | now rewrite IH].
Qed.

Lemma flat_map_singleton {A B : Type} (g : A -> B) (l : list A) :
  flat_map (fun x => [g x]) l = map g l.
Proof.
  induction l as [|x l IH]; simpl; [reflexivity | now rewrite IH].
Qed.

Lemma item_nodes_children (order : Order) (item : Item) :
  item_nodes order item =
  around order item (forest_nodes order (children item)).
Proof.
  destruct item as [course | lab | task | step]; unfold forest_nodes; simpl.
  - unfold course_nodes. now rewrite flat_map_map.
  - unfold lab_nodes. now rewrite flat_map_map.
  - unfold task_nodes. rewrite flat_map_map. simpl.
    now rewrite flat_map_singleton.
  - now destruct order.
Qed.

Lemma length_around (order : Order) (node : Item) (below : list Item) :
  length (around order node below) = 1 + length below.
Proof.
  destruct order; simpl; [reflexivity |].
  rewrite length_app; simpl; lia.
Qed.

Lemma length_flat_map {A B : Type} (f : A -> list B) (g : A -> nat)
    (l : list A) :
  (forall x, In x l -> length (f x) = g x) ->
  length (flat_map f l) = list_sum (map g l).
Proof.
  induction l as [|x l IH]; intros Hfg; simpl; [reflexivity |].
  rewrite length_app, Hfg, IH; auto with datatypes.
Qed.

Lemma length_item_nodes (order : Order) (item : Item) :
  length (item_nodes order item) = count_item item.
Proof.
  assert (Htask : forall task, length (task_nodes order task) = count_task task).
  { intros task. unfold task_nodes, count_task.
    now rewrite length_around, length_map. }
  assert (Hlab : forall lab, length (lab_nodes order lab) = count_lab lab).
  { intros lab. unfold lab_nodes, count_lab. rewrite length_around.
    f_equal. apply length_flat_map. auto. }
  destruct item as [course | lab | task | step]; simpl; auto.
  unfold course_nodes, count_course. rewrite length_around.
  f_equal. apply length_flat_map. auto.
Qed.

Lemma length_forest_nodes (order : Order) (items : list Item) :
  length (forest_nodes order items) = count_nodes items.
Proof.
  apply length_flat_map. intros; apply length_item_nodes.
Qed.

(** ** The two searches as scans *)

(** The nested loops of the iterative search scan the forest in
    pre-order. *)
Lemma iterative_counted_scan (courses : list Course) (item_id : string) :
  get_item_by_id_dfs_iterative_counted courses item_id PreOrder =
  scan (forest_nodes PreOrder (map ICourse courses)) item_id 0.
Proof.
  unfold get_item_by_id_dfs_iterative_counted, forest_nodes.
  rewrite flat_map_map.
  apply for_each_scan; intros course _ counter; cbn [item_nodes].
  unfold course_nodes; cbn [around scan].
  change (id (ICourse course)) with (id course).
  destruct (id course =? item_id); [reflexivity |].
  apply for_each_scan; intros lab _ counter1.
  unfold lab_nodes; cbn [around scan].
  change (id (ILab lab)) with (id lab).
  destruct (id lab =? item_id); [reflexivity |].
  apply for_each_scan; intros task _ counter2.
  unfold task_nodes; cbn [around scan].
  change (id (ITask task)) with (id task).
  destruct (id task =? item_id); [reflexivity |].
  rewrite <- (flat_map_singleton IStep).
  apply for_each_scan; intros step _ counter3; cbn [scan].
  change (id (IStep step)) with (id step).
  now destruct (id step =? item_id).
Qed.

(** One turn of the loop of the recursive search. *)
Lemma dfs_recursive_cons (depth : nat) (item : Item) (items : list Item)
    (item_id : string) (order : Order) (visited_nodes : nat) :
  get_item_by_id_dfs_recursive_ (S depth) (item :: items) item_id order
    visited_nodes =
  match
    match order with
    | PreOrder => scan [item] item_id visited_nodes
    | PostOrder => (None, visited_nodes)
    end
  with
  | (Some found, v1) => Some (Some found, v1)
  | (None, v1) =>
      match
        match item with
        | IStep _ => Some (None, v1)
        | _ => get_item_by_id_dfs_recursive_ depth (children item) item_id
                 order v1
        end
      with
      | None => None
      | Some (Some found, v2) => Some (Some found, v2)
      | Some (None, v2) =>
          match
            match order with
            | PostOrder => scan [item] item_id v2
            | PreOrder => (None, v2)
            end
          with
          | (Some found, v3) => Some (Some found, v3)
          | (None, v3) =>
              get_item_by_id_dfs_recursive_ (S depth) items item_id order v3
          end
      end
  end.
Proof.
  destruct item, order; cbn [scan]; reflexivity.
Qed.

Lemma rank_children (item child : Item) :
  In child (children item) -> S (rank child) = rank item.
Proof.
  destruct item; simpl; rewrite ?in_map_iff;
    try (intros (x & <- & _); reflexivity); tauto.
Qed.

(** With room for the levels below its items, the recursive search scans
    the forest in the order asked for. *)
Lemma dfs_recursive_scan (depth : nat) :
  forall (items : list Item) (item_id : string) (order : Order)
         (visited_nodes : nat),
    1 <= depth ->
    (forall item, In item items -> rank item <= depth) ->
    get_item_by_id_dfs_recursive_ depth items item_id order visited_nodes =
    Some (scan (forest_nodes order items) item_id visited_nodes).
Proof.
  induction depth as [|depth IHdepth]; [lia |].
  intros items item_id order.
  induction items as [|item items IH]; intros v Hdepth Hrank.
  - reflexivity.
  - rewrite dfs_recursive_cons.
    change (forest_nodes order (item :: items))
      with (item_nodes order item ++ forest_nodes order items).
    rewrite scan_app, item_nodes_children.
    assert (Hgo : forall v1,
      match item with
      | IStep _ => Some (None, v1)
      | _ => get_item_by_id_dfs_recursive_ depth (children item) item_id
               order v1
      end = Some (scan (forest_nodes order (children item)) item_id v1)).
    { intros v1.
      assert (Hitem : rank item <= S depth) by (apply Hrank; now left).
      assert (Hbelow : forall child,
                In child (children item) -> rank child <= depth).
      { intros child Hin. apply rank_children in Hin. lia. }
      destruct item; simpl in Hitem; try reflexivity;
        apply IHdepth; solve [lia | assumption]. }
    assert (Hrest : forall v3,
      get_item_by_id_dfs_recursive_ (S depth) items item_id order v3 =
      Some (scan (forest_nodes order items) item_id v3)).
    { intros v3. apply IH; [lia |]. intros; apply Hrank; now right. }
    destruct order; cbn [around scan].
    + destruct (id item =? item_id); [reflexivity |].
      rewrite Hgo.
      destruct (scan (forest_nodes PreOrder (children item)) item_id (v + 1))
        as [[found|] v2]; [reflexivity | apply Hrest].
    + rewrite Hgo, scan_app.
      destruct (scan (forest_nodes PostOrder (children item)) item_id v)
        as [[found|] v2]; [reflexivity |].
      cbn [scan].
      destruct (id item =? item_id); [reflexivity | apply Hrest].
Qed.

Lemma rank_le_max_depth (item : Item) : rank item <= max_depth.
Proof. destruct item; unfold max_depth; simpl; lia. Qed.

Lemma dfs_recursive_counted_scan (items : list Item) (item_id : string)
    (order : Order) :
  get_item_by_id_dfs_recursive_counted items item_id order =
  Some (scan (forest_nodes order items) item_id 0).
Proof.
  apply dfs_recursive_scan; [unfold max_depth; lia |].
  intros; apply rank_le_max_depth.
Qed.

(** ** Lemmas on the lookups *)

Section FindById.

Context {T : Type} `{Identifiable T}.

Lemma find_by_id_none (items : list T) (item_id : string) :
  find_by_id items item_id = None <->
  (forall x, In x items -> id x <> item_id).
Proof.
  induction items as [|item items IH]; simpl.
  - split; [intros _ x [] | reflexivity].
  - destruct (id item =? item_id) eqn:E.
    + apply String.eqb_eq in E. split; [discriminate |].
      intros Hall. exfalso. apply (Hall item); auto.
    + apply String.eqb_neq in E. rewrite IH. split.
      * intros Hall x [<- | Hin]; auto.
      * intros Hall x Hin. apply Hall. now right.
Qed.

Lemma find_by_id_some (items : list T) (item_id : string) (x : T) :
  find_by_id items item_id = Some x <->
  exists before after,
    items = before ++ x :: after /\
    (forall y, In y before -> id y <> item_id) /\
    id x = item_id.
Proof.
  induction items as [|item items IH]; simpl.
  - split; [discriminate |].
    intros (before & after & E & _). now destruct before.
  - destruct (id item =? item_id) eqn:E.
    + apply String.eqb_eq in E. split.
      * intros [= <-]. exists [], items. simpl. tauto.
      * intros ([|y before] & after & Eq & Hb & Hx); simpl in Eq.
        -- now inversion Eq.
        -- inversion Eq; subst y. exfalso. apply (Hb item); simpl; auto.
    + apply String.eqb_neq in E. rewrite IH. split.
      * intros (before & after & -> & Hb & Hx).
        exists (item :: before), after. simpl. repeat split; auto.
        intros y [<- | Hin]; auto.
      * intros ([|y before] & after & Eq & Hb & Hx); simpl in Eq.
        -- inversion Eq; subst. contradiction.
        -- inversion Eq; subst. exists before, after.
           repeat split; auto. intros z Hz. apply Hb. now right.
Qed.

End FindById.

(** The two pre-order searches return the same value on every forest
    and every id, present or not. *)
Lemma dfs_preorder_same (courses : list Course) (item_id : string) :
  get_item_by_id_dfs_recursive (map ICourse courses) item_id PreOrder =
  get_item_by_id_dfs_iterative courses item_id PreOrder.
Proof.
  unfold get_item_by_id_dfs_recursive, get_item_by_id_dfs_iterative.
  rewrite dfs_recursive_counted_scan, iterative_counted_scan.
  now destruct (scan _ _ _).
Qed.

(** ** Searches read, and write the counter only *)

Create HintDb reads_only.

Lemma reads_only_ret {A : Type} (a : A) : Heap.reads_only (Heap.ret a).
Proof. intros st; reflexivity. Qed.

Lemma reads_only_bind {A B : Type} (m : Heap.Run A) (k : A -> Heap.Run B) :
  Heap.reads_only m -> (forall a, Heap.reads_only (k a)) ->
  Heap.reads_only (Heap.bind m k).
Proof.
  intros Hm Hk st. unfold Heap.bind.
  specialize (Hm st). destruct (m st) as [a st']; simpl in Hm.
  now rewrite Hk.
Qed.

Lemma reads_only_read_id (r : Heap.ref) : Heap.reads_only (Heap.read_id r).
Proof. intros st; reflexivity. Qed.

Lemma reads_only_read_below (r : Heap.ref) :
  Heap.reads_only (Heap.read_below r).
Proof. intros st; reflexivity. Qed.

Lemma reads_only_read_kind (r : Heap.ref) :
  Heap.reads_only (Heap.read_kind r).
Proof. intros st; reflexivity. Qed.

Lemma reads_only_reset : Heap.reads_only Heap.reset.
Proof. intros st; reflexivity. Qed.

Lemma reads_only_count : Heap.reads_only Heap.count.
Proof. intros st; reflexivity. Qed.

Lemma reads_only_if {A : Type} (b : bool) (m1 m2 : Heap.Run A) :
  Heap.reads_only m1 -> Heap.reads_only m2 ->
  Heap.reads_only (if b then m1 else m2).
Proof. now destruct b. Qed.

Lemma reads_only_for_each {A R : Type} (body : A -> Heap.Run (option R))
    (xs : list A) :
  (forall x, Heap.reads_only (body x)) ->
  Heap.reads_only (Heap.for_each body xs).
Proof.
  intros Hbody. induction xs as [|x xs IH]; simpl.
  - apply reads_only_ret.
  - apply reads_only_bind; [apply Hbody |].
    intros [r|]; [apply reads_only_ret | apply IH].
Qed.

#[export] Hint Resolve reads_only_ret reads_only_bind reads_only_read_id
  reads_only_read_below reads_only_read_kind reads_only_reset
  reads_only_count reads_only_if reads_only_for_each : reads_only.

Ltac reads_only :=
  repeat first
    [ progress intros
    | apply reads_only_bind
    | apply reads_only_for_each
    | apply reads_only_if
    | solve [auto with reads_only]
    | match goal with
      | |- Heap.reads_only (match ?x with _ => _ end) => destruct x
      end ].

Lemma reads_only_find_by_id (items : list Heap.ref) (item_id : string) :
  Heap.reads_only (Heap.find_by_id items item_id).
Proof. unfold Heap.find_by_id. reads_only. Qed.

#[export] Hint Resolve reads_only_find_by_id : reads_only.

Lemma reads_only_get_by_id (parent : Heap.ref) (item_id : string) :
  Heap.reads_only
    (Heap.bind (Heap.read_below parent) (fun items =>
     Heap.find_by_id items item_id)).
Proof. reads_only. Qed.

Lemma reads_only_get_lab_by_path (courses : list Heap.ref)
    (course_id lab_id : string) :
  Heap.reads_only (Heap.get_lab_by_path courses course_id lab_id).
Proof.
  unfold Heap.get_lab_by_path, Heap.get_course_by_path, Heap.get_course_by_id,
    Heap.get_lab_by_id.
  reads_only.
Qed.

#[export] Hint Resolve reads_only_get_lab_by_path : reads_only.

Lemma reads_only_get_task_by_path (courses : list Heap.ref)
    (course_id lab_id task_id : string) :
  Heap.reads_only (Heap.get_task_by_path courses course_id lab_id task_id).
Proof. unfold Heap.get_task_by_path, Heap.get_task_by_id. reads_only. Qed.

#[export] Hint Resolve reads_only_get_task_by_path : reads_only.

Lemma reads_only_get_step_by_path (courses : list Heap.ref)
    (course_id lab_id task_id step_id : string) :
  Heap.reads_only
    (Heap.get_step_by_path courses course_id lab_id task_id step_id).
Proof. unfold Heap.get_step_by_path, Heap.get_step_by_id. reads_only. Qed.

Lemma reads_only_dfs_iterative (courses : list Heap.ref) (item_id : string)
    (order : Order) :
  Heap.reads_only (Heap.get_item_by_id_dfs_iterative courses item_id order).
Proof. unfold Heap.get_item_by_id_dfs_iterative. reads_only. Qed.

Lemma reads_only_visit_if (here order : Order) (r : Heap.ref)
    (item_id : string) :
  Heap.reads_only (Heap.visit_if here order r item_id).
Proof. unfold Heap.visit_if. destruct here, order; reads_only. Qed.

#[export] Hint Resolve reads_only_visit_if : reads_only.

Lemma reads_only_dfs_recursive_ (depth : nat) :
  forall (items : list Heap.ref) (item_id : string) (order : Order),
    Heap.reads_only
      (Heap.get_item_by_id_dfs_recursive_ depth items item_id order).
Proof.
  induction depth as [|depth IHdepth]; intros items item_id order.
  - apply reads_only_ret.
  - induction items as [|r items IH].
    + apply reads_only_ret.
    + cbn [Heap.get_item_by_id_dfs_recursive_] in IH |- *.
      apply reads_only_bind; [apply reads_only_visit_if |].
      intros [found|]; [apply reads_only_ret |].
      apply reads_only_bind; [apply reads_only_read_kind |]. intros k.
      apply reads_only_bind.
      { destruct k; reads_only. }
      intros [[found|]|]; try apply reads_only_ret.
      apply reads_only_bind; [apply reads_only_visit_if |].
      intros [found|]; [apply reads_only_ret | apply IH].
Qed.

Lemma reads_only_dfs_recursive (items : list Heap.ref) (item_id : string)
    (order : Order) :
  Heap.reads_only (Heap.get_item_by_id_dfs_recursive items item_id order).
Proof.
  unfold Heap.get_item_by_id_dfs_recursive.
  apply reads_only_bind; [apply reads_only_reset |].
  intros _. apply reads_only_dfs_recursive_.
Qed.

(** ** The stored searches agree with the searches on values *)

Lemma Forall2_map_right {A B C : Type} (R : A -> C -> Prop) (g : B -> C)
    (l : list A) (l' : list B) :
  Forall2 (fun a b => R a (g b)) l l' -> Forall2 R l (map g l').
Proof. induction 1; simpl; constructor; auto. Qed.

Lemma repr_id objs r item :
  repr objs r item -> Heap.obj_id (objs r) = id item.
Proof. destruct item; simpl; unfold repr_course, repr_lab, repr_task, repr_step; tauto. Qed.

Lemma repr_below objs r item :
  repr objs r item ->
  match item with
  | IStep _ => Heap.kind (objs r) = Heap.KStep
  | _ => Heap.kind (objs r) <> Heap.KStep /\
         Forall2 (repr objs) (Heap.below (objs r)) (children item)
  end.
Proof.
  destruct item; simpl;
    unfold repr_course, repr_lab, repr_task, repr_step;
    intros H; try tauto; destruct H as (Hk & _ & Hb);
    (split; [congruence | now apply Forall2_map_right]).
Qed.

Lemma heap_visit_if (here order : Order) objs r item_id v :
  Heap.visit_if here order r item_id (Heap.mkState objs v) =
  match here, order with
  | PreOrder, PreOrder | PostOrder, PostOrder =>
      if Heap.obj_id (objs r) =? item_id
      then (Some (Heap.mkFoundItem r (v + 1)), Heap.mkState objs (v + 1))
      else (None, Heap.mkState objs (v + 1))
  | _, _ => (None, Heap.mkState objs v)
  end.
Proof.
  destruct here, order; try reflexivity;
    unfold Heap.visit_if, Heap.bind, Heap.count, Heap.read_id; simpl;
    now destruct (_ =? _).
Qed.

Lemma heap_dfs_recursive_cons depth r rs item_id order st :
  Heap.get_item_by_id_dfs_recursive_ (S depth) (r :: rs) item_id order st =
  let (pre, st1) := Heap.visit_if PreOrder order r item_id st in
  match pre with
  | Some found => (Some (Some found), st1)
  | None =>
      let (go_items, st2) :=
        match Heap.kind (Heap.objects st1 r) with
        | Heap.KStep => (Some None, st1)
        | _ => Heap.get_item_by_id_dfs_recursive_ depth
                 (Heap.below (Heap.objects st1 r)) item_id order st1
        end in
      match go_items with
      | None => (None, st2)
      | Some (Some found) => (Some (Some found), st2)
      | Some None =>
          let (post, st3) := Heap.visit_if PostOrder order r item_id st2 in
          match post with
          | Some found => (Some (Some found), st3)
          | None =>
              Heap.get_item_by_id_dfs_recursive_ (S depth) rs item_id order st3
          end
      end
  end.
Proof.
  cbn [Heap.get_item_by_id_dfs_recursive_]. unfold Heap.bind at 1.
  destruct (Heap.visit_if PreOrder order r item_id st) as [[found|] st1];
    [reflexivity |].
  unfold Heap.bind at 1, Heap.read_kind at 1. unfold Heap.bind at 1.
  destruct (Heap.kind (Heap.objects st1 r));
    try (unfold Heap.bind at 1, Heap.read_below at 1);
    match goal with
    | |- context [Heap.get_item_by_id_dfs_recursive_ depth ?l _ _ ?s] =>
        destruct (Heap.get_item_by_id_dfs_recursive_ depth l item_id order s)
          as [[[found|]|] st2]
    | _ => idtac
    end;
    try reflexivity;
    unfold Heap.bind at 1, Heap.ret at 1;
    try (unfold Heap.bind at 1);
    match goal with
    | |- context [Heap.visit_if PostOrder order r item_id ?s] =>
        destruct (Heap.visit_if PostOrder order r item_id s) as [[found'|] st3]
    end; reflexivity.
Qed.

Lemma dfs_recursive_simulation objs depth :
  forall rs items item_id order v,
    Forall2 (repr objs) rs items ->
    match get_item_by_id_dfs_recursive_ depth items item_id order v with
    | None =>
        fst (Heap.get_item_by_id_dfs_recursive_ depth rs item_id order
               (Heap.mkState objs v)) = None
    | Some (res, v') =>
        exists res_h,
          Heap.get_item_by_id_dfs_recursive_ depth rs item_id order
            (Heap.mkState objs v) = (Some res_h, Heap.mkState objs v') /\
          result_rel objs res_h res
    end.
Proof.
  induction depth as [|depth IHdepth]; [reflexivity |].
  intros rs items item_id order v Hrepr. revert v.
  induction Hrepr as [|r item rs items Hr Hrs IH]; intros v.
  - exists None. split; reflexivity.
  - rewrite dfs_recursive_cons, heap_dfs_recursive_cons.
    rewrite heap_visit_if, (repr_id _ _ _ Hr).
    assert (Hgo : forall v1,
      match
        match item with
        | IStep _ => Some (None, v1)
        | _ => get_item_by_id_dfs_recursive_ depth (children item) item_id
                 order v1
        end
      with
      | None =>
          fst match Heap.kind (objs r) with
              | Heap.KStep => (Some None, Heap.mkState objs v1)
              | _ => Heap.get_item_by_id_dfs_recursive_ depth
                       (Heap.below (objs r)) item_id order
                       (Heap.mkState objs v1)
              end = None
      | Some (res, v') =>
          exists res_h,
            match Heap.kind (objs r) with
            | Heap.KStep => (Some None, Heap.mkState objs v1)
            | _ => Heap.get_item_by_id_dfs_recursive_ depth
                     (Heap.below (objs r)) item_id order
                     (Heap.mkState objs v1)
            end = (Some res_h, Heap.mkState objs v') /\
            result_rel objs res_h res
      end).
    { intros v1. pose proof (repr_below _ _ _ Hr) as Hb.
      destruct item.
      1-3: destruct Hb as [Hk Hb];
        specialize (IHdepth _ _ item_id order v1 Hb);
        destruct (Heap.kind (objs r)); try congruence; exact IHdepth.
      rewrite Hb. exists None. split; reflexivity. }
    destruct order; cbn [scan Heap.objects].
    + destruct (id item =? item_id).
      { eexists. split; [reflexivity |]. simpl. split; [assumption | reflexivity]. }
      cbn [Heap.objects]. specialize (Hgo (v + 1)).
      destruct (match item with IStep _ => _ | _ => _ end) as [[[found|] v2]|].
      * destruct Hgo as (res_h & -> & Hrel).
        destruct res_h as [found_h|]; [| contradiction].
        eexists. split; [reflexivity | exact Hrel].
      * destruct Hgo as (res_h & -> & Hrel).
        destruct res_h as [found_h|]; [contradiction |].
        rewrite heap_visit_if. apply IH.
      * destruct (match Heap.kind (objs r) with Heap.KStep => _ | _ => _ end)
          as [go_h st2]. simpl in Hgo. now subst go_h.
    + cbn [Heap.objects]. specialize (Hgo v).
      destruct (match item with IStep _ => _ | _ => _ end) as [[[found|] v2]|].
      * destruct Hgo as (res_h & -> & Hrel).
        destruct res_h as [found_h|]; [| contradiction].
        eexists. split; [reflexivity | exact Hrel].
      * destruct Hgo as (res_h & -> & Hrel).
        destruct res_h as [found_h|]; [contradiction |].
        rewrite heap_visit_if, (repr_id _ _ _ Hr).
        destruct (id item =? item_id).
        { eexists. split; [reflexivity |]. simpl. split; [assumption | reflexivity]. }
        apply IH.
      * destruct (match Heap.kind (objs r) with Heap.KStep => _ | _ => _ end)
          as [go_h st2]. simpl in Hgo. now subst go_h.
Qed.

Lemma simulates_for_each {A B : Type} objs (R : A -> B -> Prop)
    (body_h : A -> Heap.Run (option Heap.FoundItem))
    (body : B -> nat -> option FoundItem * nat) (rs : list A) (xs : list B) :
  Forall2 R rs xs ->
  (forall r x, R r x -> simulates objs (body_h r) (body x)) ->
  simulates objs (Heap.for_each body_h rs) (for_each body xs).
Proof.
  intros HR Hbody. induction HR as [|r x rs xs Hrx _ IH]; intros v; simpl.
  - exists None. split; reflexivity.
  - unfold Heap.bind.
    destruct (Hbody r x Hrx v) as (res_h & -> & Hrel).
    destruct (body x v) as [[found|] v1], res_h as [found_h|];
      simpl in *; try contradiction.
    + exists (Some found_h). split; [reflexivity | assumption].
    + apply IH.
Qed.

Lemma simulates_visit objs (r : Heap.ref) (node : Item) (item_id : string)
    (rest_h : Heap.Run (option Heap.FoundItem))
    (rest : nat -> option FoundItem * nat) :
  repr objs r node ->
  simulates objs rest_h rest ->
  simulates objs
    (Heap.bind Heap.count (fun c =>
     Heap.bind (Heap.read_id r) (fun i =>
     if i =? item_id then Heap.ret (Some (Heap.mkFoundItem r c))
     else rest_h)))
    (fun counter =>
       let counter := counter + 1 in
       if id node =? item_id
       then (Some (mkFoundItem node counter), counter)
       else rest counter).
Proof.
  intros Hr Hrest v.
  unfold Heap.bind, Heap.count, Heap.read_id; simpl.
  rewrite (repr_id _ _ _ Hr).
  destruct (id node =? item_id).
  - eexists. split; [reflexivity |]. simpl. split; [assumption | reflexivity].
  - apply Hrest.
Qed.

Lemma dfs_iterative_simulation objs (rs : list Heap.ref)
    (courses : list Course) (item_id : string) (order : Order) (v : nat) :
  Forall2 (repr_course objs) rs courses ->
  exists res_h,
    Heap.get_item_by_id_dfs_iterative rs item_id order (Heap.mkState objs v) =
      (res_h,
       Heap.mkState objs
         (snd (get_item_by_id_dfs_iterative_counted courses item_id order))) /\
    result_rel objs res_h (get_item_by_id_dfs_iterative courses item_id order).
Proof.
  intros Hrepr.
  unfold Heap.get_item_by_id_dfs_iterative, get_item_by_id_dfs_iterative,
    get_item_by_id_dfs_iterative_counted.
  unfold Heap.bind at 1, Heap.reset.
  destruct order; [| exists None; split; reflexivity].
  apply (simulates_for_each objs (repr_course objs)); [assumption |].
  intros course_h course Hcourse.
  apply (simulates_visit objs course_h (ICourse course)); [assumption |].
  intros v1. unfold Heap.bind at 1, Heap.read_below at 1.
  apply (simulates_for_each objs (repr_lab objs)); [apply Hcourse |].
  intros lab_h lab Hlab.
  apply (simulates_visit objs lab_h (ILab lab)); [assumption |].
  intros v2. unfold Heap.bind at 1, Heap.read_below at 1.
  apply (simulates_for_each objs (repr_task objs)); [apply Hlab |].
  intros task_h task Htask.
  apply (simulates_visit objs task_h (ITask task)); [assumption |].
  intros v3. unfold Heap.bind at 1, Heap.read_below at 1.
  apply (simulates_for_each objs (repr_step objs)); [apply Htask |].
  intros step_h step Hstep.
  apply (simulates_visit objs step_h (IStep step) item_id
           (Heap.ret None) (fun counter => (None, counter)));
    [assumption |].
  intros v4. exists None. split; reflexivity.
Qed.

Lemma find_by_id_simulation {T : Type} `{Identifiable T} objs
    (R : Heap.ref -> T -> Prop) (rs : list Heap.ref) (items : list T)
    (item_id : string) (st : Heap.State) :
  Heap.objects st = objs ->
  (forall r x, R r x -> Heap.obj_id (objs r) = id x) ->
  Forall2 R rs items ->
  exists res_h,
    Heap.find_by_id rs item_id st = (res_h, st) /\
    option_rel R res_h (find_by_id items item_id).
Proof.
  intros <- Hid HR. induction HR as [|r x rs items Hrx _ IH]; simpl.
  - exists None. split; reflexivity.
  - unfold Heap.find_by_id in *. simpl.
    unfold Heap.bind at 1, Heap.read_id at 1. unfold Heap.bind at 1.
    rewrite (Hid r x Hrx).
    destruct (id x =? item_id).
    + exists (Some r). split; [reflexivity | assumption].
    + apply IH.
Qed.

Lemma repr_course_id objs r course :
  repr_course objs r course -> Heap.obj_id (objs r) = id course.
Proof. unfold repr_course; tauto. Qed.

Lemma repr_lab_id objs r lab :
  repr_lab objs r lab -> Heap.obj_id (objs r) = id lab.
Proof. unfold repr_lab; tauto. Qed.

Lemma repr_task_id objs r task :
  repr_task objs r task -> Heap.obj_id (objs r) = id task.
Proof. unfold repr_task; tauto. Qed.

Lemma repr_step_id objs r step :
  repr_step objs r step -> Heap.obj_id (objs r) = id step.
Proof. unfold repr_step; tauto. Qed.

Lemma path_lookup_simulation (rs : list Heap.ref) (courses : list Course)
    (course_id lab_id task_id step_id : string) (st : Heap.State) :
  Forall2 (repr_course (Heap.objects st)) rs courses ->
  (exists res_h,
     Heap.get_course_by_path rs course_id st = (res_h, st) /\
     option_rel (repr_course (Heap.objects st)) res_h
       (get_course_by_path courses course_id)) /\
  (exists res_h,
     Heap.get_lab_by_path rs course_id lab_id st = (res_h, st) /\
     option_rel (repr_lab (Heap.objects st)) res_h
       (get_lab_by_path courses course_id lab_id)) /\
  (exists res_h,
     Heap.get_task_by_path rs course_id lab_id task_id st = (res_h, st) /\
     option_rel (repr_task (Heap.objects st)) res_h
       (get_task_by_path courses course_id lab_id task_id)) /\
  (exists res_h,
     Heap.get_step_by_path rs course_id lab_id task_id step_id st =
       (res_h, st) /\
     option_rel (repr_step (Heap.objects st)) res_h
       (get_step_by_path courses course_id lab_id task_id step_id)).
Proof.
  intros Hrepr.
  set (objs := Heap.objects st) in *.
  assert (Hcourse : exists res_h,
     Heap.get_course_by_path rs course_id st = (res_h, st) /\
     option_rel (repr_course objs) res_h
       (get_course_by_path courses course_id)).
  { apply (find_by_id_simulation objs (repr_course objs));
      [reflexivity | apply repr_course_id | assumption]. }
  assert (Hlab : exists res_h,
     Heap.get_lab_by_path rs course_id lab_id st = (res_h, st) /\
     option_rel (repr_lab objs) res_h
       (get_lab_by_path courses course_id lab_id)).
  { unfold Heap.get_lab_by_path, get_lab_by_path, Heap.bind.
    destruct Hcourse as (res_h & -> & Hrel).
    destruct res_h as [r|], (get_course_by_path courses course_id) as [course|];
      simpl in Hrel; try contradiction.
    - unfold Heap.get_lab_by_id, Heap.bind, Heap.read_below.
      apply (find_by_id_simulation objs (repr_lab objs));
        [reflexivity | apply repr_lab_id | apply Hrel].
    - exists None. split; reflexivity. }
  assert (Htask : exists res_h,
     Heap.get_task_by_path rs course_id lab_id task_id st = (res_h, st) /\
     option_rel (repr_task objs) res_h
       (get_task_by_path courses course_id lab_id task_id)).
  { unfold Heap.get_task_by_path, get_task_by_path, Heap.bind.
    destruct Hlab as (res_h & -> & Hrel).
    destruct res_h as [r|], (get_lab_by_path courses course_id lab_id)
      as [lab|]; simpl in Hrel; try contradiction.
    - unfold Heap.get_task_by_id, Heap.bind, Heap.read_below.
      apply (find_by_id_simulation objs (repr_task objs));
        [reflexivity | apply repr_task_id | apply Hrel].
    - exists None. split; reflexivity. }
  repeat split; try assumption.
  unfold Heap.get_step_by_path, get_step_by_path, Heap.bind.
  destruct Htask as (res_h & -> & Hrel).
  destruct res_h as [r|],
    (get_task_by_path courses course_id lab_id task_id) as [task|];
    simpl in Hrel; try contradiction.
  - unfold Heap.get_step_by_id, Heap.bind, Heap.read_below.
    apply (find_by_id_simulation objs (repr_step objs));
      [reflexivity | apply repr_step_id | apply Hrel].
  - exists None. split; reflexivity.
Qed.

(** The whole recursive search over a stored forest: it returns, and
    what it returns matches the search on values. *)
Lemma dfs_recursive_stored objs (rs : list Heap.ref) (items : list Item)
    (item_id : string) (order : Order) (v : nat) :
  Forall2 (repr objs) rs items ->
  exists res_h v',
    Heap.get_item_by_id_dfs_recursive rs item_id order (Heap.mkState objs v) =
      (Some res_h, Heap.mkState objs v') /\
    get_item_by_id_dfs_recursive_counted items item_id order =
      Some (get_item_by_id_dfs_recursive items item_id order, v') /\
    result_rel objs res_h (get_item_by_id_dfs_recursive items item_id order).
Proof.
  intros Hrepr.
  pose proof (dfs_recursive_simulation objs max_depth rs items item_id order 0
                Hrepr) as Hsim.
  unfold get_item_by_id_dfs_recursive.
  unfold get_item_by_id_dfs_recursive_counted in *.
  rewrite dfs_recursive_scan in *
    by (try (unfold max_depth; lia); intros; apply rank_le_max_depth).
  destruct (scan (forest_nodes order items) item_id 0) as [res v'].
  destruct Hsim as (res_h & Hrun & Hrel).
  exists res_h, v'. repeat split; assumption.
Qed.

Lemma example_objects_repr : Forall2 (repr_course example_objects) [0] [C1].
Proof.
  repeat (constructor; try reflexivity).
Qed.

Example heap_example_postorder :
  Heap.get_item_by_id_dfs_recursive [0] "C1" PostOrder
    (Heap.mkState example_objects 9) =
  (Some (Some (Heap.mkFoundItem 0 4)), Heap.mkState example_objects 4).
Proof. reflexivity. Qed.

Example heap_example_preorder :
  Heap.get_item_by_id_dfs_iterative [0] "T1" PreOrder
    (Heap.mkState example_objects 9) =
  (Some (Heap.mkFoundItem 2 3), Heap.mkState example_objects 3).
Proof. reflexivity. Qed.

Example heap_example_path :
  Heap.get_step_by_path [0] "C1" "L1" "T1" "S1"
    (Heap.mkState example_objects 9) =
  (Some 3, Heap.mkState example_objects 9).
Proof. reflexivity. Qed.

(** ** The properties of the specification *)

(** C1.  On every forest of courses and every id some node of it carries,
    the iterative and the recursive search in pre-order both find a node,
    the same one, with the same count of visited nodes; the counter each
    of them ends on is that count. *)
Theorem dfs_preorder_iterative_recursive_agree
    (courses : list Course) (item_id : string) :
  present item_id (map ICourse courses) ->
  exists found,
    get_item_by_id_dfs_iterative courses item_id PreOrder = Some found /\
    get_item_by_id_dfs_recursive (map ICourse courses) item_id PreOrder =
      Some found /\
    get_item_by_id_dfs_iterative_counted courses item_id PreOrder =
      (Some found, visited_nodes found) /\
    get_item_by_id_dfs_recursive_counted (map ICourse courses) item_id
      PreOrder = Some (Some found, visited_nodes found).
Proof.
  intros Hpresent.
  destruct (scan_present _ _ 0 Hpresent) as [found Hscan].
  exists found.
  unfold get_item_by_id_dfs_recursive, get_item_by_id_dfs_iterative.
  rewrite dfs_recursive_counted_scan, iterative_counted_scan, Hscan.
  auto.
Qed.

Lemma dfs_preorder_iterative_recursive_agree_witness :
  exists found,
    get_item_by_id_dfs_iterative [C1] "S1" PreOrder = Some found /\
    get_item_by_id_dfs_recursive (map ICourse [C1]) "S1" PreOrder =
      Some found /\
    get_item_by_id_dfs_iterative_counted [C1] "S1" PreOrder =
      (Some found, visited_nodes found) /\
    get_item_by_id_dfs_recursive_counted (map ICourse [C1]) "S1"
      PreOrder = Some (Some found, visited_nodes found).
Proof.
  apply (dfs_preorder_iterative_recursive_agree [C1] "S1").
  exists (IStep S1). split; [simpl; tauto | reflexivity].
Defined.

(** C2.  On the forest of one Course C1 with one Lab L1 with one Task T1
    with one Step S1, the recursive search for "C1" returns C1 with 4
    visited nodes in post-order and C1 with 1 visited node in pre-order;
    in post-order the nodes are met in the order S1, T1, L1, C1. *)
Theorem dfs_recursive_example_C1 :
  get_item_by_id_dfs_recursive [ICourse C1] "C1" PostOrder =
    Some (mkFoundItem (ICourse C1) 4) /\
  get_item_by_id_dfs_recursive [ICourse C1] "C1" PreOrder =
    Some (mkFoundItem (ICourse C1) 1) /\
  get_item_by_id_dfs_recursive [ICourse C1] "S1" PostOrder =
    Some (mkFoundItem (IStep S1) 1) /\
  get_item_by_id_dfs_recursive [ICourse C1] "T1" PostOrder =
    Some (mkFoundItem (ITask T1) 2) /\
  get_item_by_id_dfs_recursive [ICourse C1] "L1" PostOrder =
    Some (mkFoundItem (ILab L1) 3) /\
  get_item_by_id_dfs_recursive_counted [ICourse C1] "C1" PostOrder =
    Some (Some (mkFoundItem (ICourse C1) 4), 4) /\
  get_item_by_id_dfs_recursive_counted [ICourse C1] "C1" PreOrder =
    Some (Some (mkFoundItem (ICourse C1) 1), 1).
Proof. repeat split; reflexivity. Qed.

(** C3, as stated, fails on the entry point: when the load raises (here
    [open] on a file that is not there), [get_item_by_id] in post-order
    raises too and does not return absent. *)
Lemma get_item_by_id_postorder_load_raises :
  ~ (forall (Exn Handle Json : Type) (course_items_path : string)
       (open_file : string -> Outcome Exn Handle)
       (json_load : Handle -> Outcome Exn Json)
       (validate_python : Json -> Outcome Exn (list Course))
       (item_id : string),
       get_item_by_id course_items_path open_file json_load validate_python
         item_id PostOrder = Returned None).
Proof.
  intros Hall.
  specialize (Hall string unit (list Course) "course_items.json"
                (fun _ => Raised "FileNotFoundError")
                (fun _ => Returned [C1])
                (fun raw => Returned raw)
                "C1").
  discriminate Hall.
Qed.

(** C3, amended.  The iterative search in post-order returns absent on
    every forest and every id, with no node counted.  The entry point
    [get_item_by_id] in post-order returns absent whenever
    [read_courses] returns a forest, whatever the forest and the id; when
    [read_courses] raises, [get_item_by_id] raises the same exception. *)
Theorem dfs_iterative_postorder_absent :
  (forall (courses : list Course) (item_id : string),
     get_item_by_id_dfs_iterative courses item_id PostOrder = None /\
     get_item_by_id_dfs_iterative_counted courses item_id PostOrder =
       (None, 0)) /\
  (forall (Exn Handle Json : Type) (course_items_path : string)
     (open_file : string -> Outcome Exn Handle)
     (json_load : Handle -> Outcome Exn Json)
     (validate_python : Json -> Outcome Exn (list Course))
     (courses : list Course) (item_id : string),
     read_courses course_items_path open_file json_load validate_python tt =
       Returned courses ->
     get_item_by_id course_items_path open_file json_load validate_python
       item_id PostOrder = Returned None) /\
  (forall (Exn Handle Json : Type) (course_items_path : string)
     (open_file : string -> Outcome Exn Handle)
     (json_load : Handle -> Outcome Exn Json)
     (validate_python : Json -> Outcome Exn (list Course))
     (exn : Exn) (item_id : string),
     read_courses course_items_path open_file json_load validate_python tt =
       Raised exn ->
     get_item_by_id course_items_path open_file json_load validate_python
       item_id PostOrder = Raised exn) /\
  get_item_by_id_dfs_iterative [C1] "C1" PostOrder = None.
Proof.
  repeat match goal with |- _ /\ _ => split end.
  - intros courses item_id. split; reflexivity.
  - intros Exn Handle Json path open_file json_load validate_python courses
      item_id Hload.
    unfold get_item_by_id. now rewrite Hload.
  - intros Exn Handle Json path open_file json_load validate_python exn
      item_id Hload.
    unfold get_item_by_id. now rewrite Hload.
  - reflexivity.
Qed.

Lemma dfs_iterative_postorder_absent_witness :
  get_item_by_id "course_items.json"
    (fun _ => @Returned string unit tt)
    (fun _ => @Returned string (list Course) [C1])
    (fun raw => Returned raw)
    "C1" PostOrder = Returned None /\
  get_item_by_id "course_items.json"
    (fun _ => @Raised string unit "FileNotFoundError")
    (fun _ => @Returned string (list Course) [C1])
    (fun raw => Returned raw)
    "C1" PostOrder = Raised "FileNotFoundError".
Proof.
  destruct dfs_iterative_postorder_absent as (_ & Hreturned & Hraised & _).
  split.
  - apply (Hreturned string unit (list Course) "course_items.json"
             (fun _ => Returned tt) (fun _ => Returned [C1])
             (fun raw => Returned raw) [C1] "C1").
    reflexivity.
  - apply (Hraised string unit (list Course) "course_items.json"
             (fun _ => Raised "FileNotFoundError") (fun _ => Returned [C1])
             (fun raw => Returned raw) "FileNotFoundError" "C1").
    reflexivity.
Defined.

(** C4.  When some item of the list carries the id, [find_by_id] returns
    the first such item in the order of the list: the list splits into
    items that do not carry the id, the item returned, and the rest.
    When no item carries the id, it returns absent. *)
Theorem find_by_id_first_match {T : Type} `{Identifiable T}
    (items : list T) (item_id : string) :
  ((exists x, In x items /\ id x = item_id) ->
   exists before x after,
     items = before ++ x :: after /\
     (forall y, In y before -> id y <> item_id) /\
     id x = item_id /\
     find_by_id items item_id = Some x) /\
  ((forall x, In x items -> id x <> item_id) ->
   find_by_id items item_id = None).
Proof.
  split.
  - intros (x & Hin & Hid).
    destruct (find_by_id items item_id) as [y|] eqn:E.
    + pose proof E as E'.
      apply find_by_id_some in E as (before & after & Eq & Hb & Hy).
      now exists before, y, after.
    + exfalso. rewrite find_by_id_none in E. now apply (E x).
  - apply find_by_id_none.
Qed.

Lemma find_by_id_first_match_witness :
  (exists before x after,
     [mkTask "a" []; mkTask "b" [S1]; mkTask "b" []] = before ++ x :: after /\
     (forall y, In y before -> id y <> "b") /\
     id x = "b" /\
     find_by_id [mkTask "a" []; mkTask "b" [S1]; mkTask "b" []] "b" = Some x) /\
  find_by_id [mkTask "a" []; mkTask "b" [S1]; mkTask "b" []] "c" = None.
Proof.
  destruct (find_by_id_first_match
              [mkTask "a" []; mkTask "b" [S1]; mkTask "b" []] "b") as [Hb _].
  destruct (find_by_id_first_match
              [mkTask "a" []; mkTask "b" [S1]; mkTask "b" []] "c") as [_ Hc].
  split.
  - apply Hb. exists (mkTask "b" []). split; [simpl; tauto | reflexivity].
  - apply Hc. intros x [<- | [<- | [<- | []]]]; discriminate.
Defined.

(** C5.  Each path lookup returns what the chain of id lookups returns:
    [get_course_by_id], then [get_lab_by_id] on its result, then
    [get_task_by_id], then [get_step_by_id], absent carried on from the
    first lookup that fails. *)
Theorem path_lookup_is_id_chain (courses : list Course)
    (course_id lab_id task_id step_id : string) :
  get_task_by_path courses course_id lab_id task_id =
    task_by_id_chain courses course_id lab_id task_id /\
  get_lab_by_path courses course_id lab_id =
    lab_by_id_chain courses course_id lab_id /\
  get_step_by_path courses course_id lab_id task_id step_id =
    step_by_id_chain courses course_id lab_id task_id step_id /\
  get_course_by_path courses course_id = get_course_by_id courses course_id.
Proof.
  unfold get_step_by_path, get_task_by_path, get_lab_by_path,
    get_course_by_path, step_by_id_chain, task_by_id_chain, lab_by_id_chain,
    and_then.
  destruct (get_course_by_id courses course_id) as [course|]; auto.
  destruct (get_lab_by_id course lab_id) as [lab|]; auto.
Qed.

(** C6.  Every lookup is a total function into an optional value, so a
    miss has no outcome but absent: [find_by_id] and the id lookups return
    absent when no item of the collection carries the id, and a path
    lookup returns absent as soon as a lookup higher in its chain does,
    and when the last lookup of its chain misses. *)
Theorem lookups_absent_on_miss {T : Type} `{Identifiable T}
    (items : list T) (courses : list Course) (course : Course) (lab : Lab)
    (task : Task) (item_id course_id lab_id task_id step_id : string) :
  ((forall x, In x items -> id x <> item_id) ->
   find_by_id items item_id = None) /\
  ((forall x, In x courses -> id x <> course_id) ->
   get_course_by_id courses course_id = None /\
   get_course_by_path courses course_id = None) /\
  ((forall x, In x (labs course) -> id x <> lab_id) ->
   get_lab_by_id course lab_id = None) /\
  ((forall x, In x (tasks lab) -> id x <> task_id) ->
   get_task_by_id lab task_id = None) /\
  ((forall x, In x (steps task) -> id x <> step_id) ->
   get_step_by_id task step_id = None) /\
  (get_course_by_path courses course_id = None ->
   get_lab_by_path courses course_id lab_id = None /\
   get_task_by_path courses course_id lab_id task_id = None /\
   get_step_by_path courses course_id lab_id task_id step_id = None) /\
  (get_lab_by_path courses course_id lab_id = None ->
   get_task_by_path courses course_id lab_id task_id = None /\
   get_step_by_path courses course_id lab_id task_id step_id = None) /\
  (get_task_by_path courses course_id lab_id task_id = None ->
   get_step_by_path courses course_id lab_id task_id step_id = None) /\
  (get_course_by_path courses course_id = Some course ->
   (forall x, In x (labs course) -> id x <> lab_id) ->
   get_lab_by_path courses course_id lab_id = None) /\
  (get_lab_by_path courses course_id lab_id = Some lab ->
   (forall x, In x (tasks lab) -> id x <> task_id) ->
   get_task_by_path courses course_id lab_id task_id = None) /\
  (get_task_by_path courses course_id lab_id task_id = Some task ->
   (forall x, In x (steps task) -> id x <> step_id) ->
   get_step_by_path courses course_id lab_id task_id step_id = None).
Proof.
  repeat match goal with |- _ /\ _ => split end.
  - apply find_by_id_none.
  - intros Hmiss. unfold get_course_by_path, get_course_by_id.
    split; now apply find_by_id_none.
  - intros Hmiss. now apply find_by_id_none.
  - intros Hmiss. now apply find_by_id_none.
  - intros Hmiss. now apply find_by_id_none.
  - intros E. unfold get_step_by_path, get_task_by_path, get_lab_by_path.
    rewrite E. auto.
  - intros E. unfold get_step_by_path, get_task_by_path. rewrite E. auto.
  - intros E. unfold get_step_by_path. now rewrite E.
  - intros E Hmiss. unfold get_lab_by_path. rewrite E.
    now apply find_by_id_none.
  - intros E Hmiss. unfold get_task_by_path. rewrite E.
    now apply find_by_id_none.
  - intros E Hmiss. unfold get_step_by_path. rewrite E.
    now apply find_by_id_none.
Qed.

(** C7.  On the empty forest both searches return absent for every id
    and either order, and the counter each ends on is 0. *)
Theorem dfs_empty_forest (item_id : string) (order : Order) :
  get_item_by_id_dfs_iterative [] item_id order = None /\
  get_item_by_id_dfs_iterative_counted [] item_id order = (None, 0) /\
  get_item_by_id_dfs_recursive [] item_id order = None /\
  get_item_by_id_dfs_recursive_counted [] item_id order = Some (None, 0).
Proof. destruct order; repeat split. Qed.

(** C8.  No search changes the forest it is given: after [find_by_id],
    each id lookup, each path lookup and either depth-first search, run
    from any state of the store on any references, every reference holds
    the object it held before (the counter alone may have moved). *)
Theorem searches_leave_forest_unchanged (st : Heap.State)
    (items courses : list Heap.ref) (course lab task : Heap.ref)
    (item_id course_id lab_id task_id step_id : string) (order : Order)
    (depth : nat) :
  Heap.objects (snd (Heap.find_by_id items item_id st)) = Heap.objects st /\
  Heap.objects (snd (Heap.get_course_by_id courses course_id st)) =
    Heap.objects st /\
  Heap.objects (snd (Heap.get_lab_by_id course lab_id st)) =
    Heap.objects st /\
  Heap.objects (snd (Heap.get_task_by_id lab task_id st)) =
    Heap.objects st /\
  Heap.objects (snd (Heap.get_step_by_id task step_id st)) =
    Heap.objects st /\
  Heap.objects (snd (Heap.get_course_by_path courses course_id st)) =
    Heap.objects st /\
  Heap.objects (snd (Heap.get_lab_by_path courses course_id lab_id st)) =
    Heap.objects st /\
  Heap.objects
    (snd (Heap.get_task_by_path courses course_id lab_id task_id st)) =
    Heap.objects st /\
  Heap.objects
    (snd (Heap.get_step_by_path courses course_id lab_id task_id step_id
            st)) =
    Heap.objects st /\
  Heap.objects
    (snd (Heap.get_item_by_id_dfs_iterative courses item_id order st)) =
    Heap.objects st /\
  Heap.objects
    (snd (Heap.get_item_by_id_dfs_recursive_ depth items item_id order st)) =
    Heap.objects st /\
  Heap.objects
    (snd (Heap.get_item_by_id_dfs_recursive items item_id order st)) =
    Heap.objects st.
Proof.
  repeat match goal with |- _ /\ _ => split end.
  - apply reads_only_find_by_id.
  - apply reads_only_find_by_id.
  - apply reads_only_get_by_id.
  - apply reads_only_get_by_id.
  - apply reads_only_get_by_id.
  - apply reads_only_find_by_id.
  - apply reads_only_get_lab_by_path.
  - apply reads_only_get_task_by_path.
  - apply reads_only_get_step_by_path.
  - apply reads_only_dfs_iterative.
  - apply reads_only_dfs_recursive_.
  - apply reads_only_dfs_recursive.
Qed.

(** What a scan that finds something returns. *)
Lemma scan_found_bounds (nodes : list Item) (item_id : string)
    (counter counter' : nat) (found : FoundItem) :
  scan nodes item_id counter = (Some found, counter') ->
  id (item found) = item_id /\
  counter + 1 <= visited_nodes found <= counter + length nodes.
Proof.
  intros E. apply scan_some in E as (before & after & -> & _ & Hid & Hv & _).
  split; [assumption |]. rewrite length_app; simpl. lia.
Qed.

(** C9.  A result of either search carries a node whose id is the id
    looked for, and a count of visited nodes between 1 and the number of
    nodes of the forest searched. *)
Theorem found_item_invariant (courses : list Course) (items : list Item)
    (item_id : string) (order : Order) (found : FoundItem) :
  (get_item_by_id_dfs_iterative courses item_id order = Some found ->
   id (item found) = item_id /\
   1 <= visited_nodes found <= count_nodes (map ICourse courses)) /\
  (get_item_by_id_dfs_recursive items item_id order = Some found ->
   id (item found) = item_id /\
   1 <= visited_nodes found <= count_nodes items).
Proof.
  split.
  - unfold get_item_by_id_dfs_iterative.
    destruct order; [| discriminate].
    rewrite iterative_counted_scan.
    destruct (scan _ _ _) as [result counter'] eqn:E; simpl.
    intros ->. apply scan_found_bounds in E.
    now rewrite length_forest_nodes in E.
  - unfold get_item_by_id_dfs_recursive.
    rewrite dfs_recursive_counted_scan.
    destruct (scan _ _ _) as [result counter'] eqn:E.
    intros ->. apply scan_found_bounds in E.
    now rewrite length_forest_nodes in E.
Qed.

Lemma found_item_invariant_witness :
  (id (item (mkFoundItem (ITask T1) 3)) = "T1" /\
   1 <= visited_nodes (mkFoundItem (ITask T1) 3)
     <= count_nodes (map ICourse [C1])) /\
  (id (item (mkFoundItem (ITask T1) 2)) = "T1" /\
   1 <= visited_nodes (mkFoundItem (ITask T1) 2)
     <= count_nodes [ICourse C1]).
Proof.
  split.
  - apply (found_item_invariant [C1] [] "T1" PreOrder
             (mkFoundItem (ITask T1) 3)).
    reflexivity.
  - apply (found_item_invariant [] [ICourse C1] "T1" PostOrder
             (mkFoundItem (ITask T1) 2)).
    reflexivity.
Defined.

(** Three levels of calls are not enough for a forest of four levels. *)
Example dfs_recursive_depth_3_too_small :
  get_item_by_id_dfs_recursive_ 3 [ICourse C1] "S1" PreOrder 0 = None.
Proof. reflexivity. Qed.


Ltac no_such_id :=
  let x := fresh "x" in
  intros x; simpl;
  repeat (let E := fresh "E" in intros [E | E]; [subst x; discriminate | revert E]);
  tauto.

Lemma lookups_absent_on_miss_witness :
  find_by_id [S1] "S2" = None /\
  (get_course_by_id [C1] "C2" = None /\ get_course_by_path [C1] "C2" = None) /\
  get_lab_by_id C1 "L2" = None /\
  get_task_by_id L1 "T2" = None /\
  get_step_by_id T1 "S2" = None /\
  (get_lab_by_path [C1] "C2" "L1" = None /\
   get_task_by_path [C1] "C2" "L1" "T1" = None /\
   get_step_by_path [C1] "C2" "L1" "T1" "S1" = None) /\
  (get_task_by_path [C1] "C1" "L2" "T1" = None /\
   get_step_by_path [C1] "C1" "L2" "T1" "S1" = None) /\
  get_step_by_path [C1] "C1" "L1" "T2" "S1" = None /\
  get_lab_by_path [C1] "C1" "L2" = None /\
  get_task_by_path [C1] "C1" "L1" "T2" = None /\
  get_step_by_path [C1] "C1" "L1" "T1" "S2" = None.
Proof.
  destruct (lookups_absent_on_miss [S1] [C1] C1 L1 T1 "S2" "C2" "L2" "T2" "S2")
    as (H1 & H2 & H3 & H4 & H5 & _).
  destruct (lookups_absent_on_miss [S1] [C1] C1 L1 T1 "S2" "C2" "L1" "T1" "S1")
    as (_ & _ & _ & _ & _ & H6 & _).
  destruct (lookups_absent_on_miss [S1] [C1] C1 L1 T1 "S2" "C1" "L2" "T1" "S1")
    as (_ & _ & _ & _ & _ & _ & H7 & _ & H9 & _).
  destruct (lookups_absent_on_miss [S1] [C1] C1 L1 T1 "S2" "C1" "L1" "T2" "S1")
    as (_ & _ & _ & _ & _ & _ & _ & H8 & _ & H10 & _).
  destruct (lookups_absent_on_miss [S1] [C1] C1 L1 T1 "S2" "C1" "L1" "T1" "S2")
    as (_ & _ & _ & _ & _ & _ & _ & _ & _ & _ & H11).
  repeat match goal with |- _ /\ _ => split end.
  - apply H1. no_such_id.
  - apply H2. no_such_id.
  - apply H2. no_such_id.
  - apply H3. no_such_id.
  - apply H4. no_such_id.
  - apply H5. no_such_id.
  - apply H6. reflexivity.
  - apply H6. reflexivity.
  - apply H6. reflexivity.
  - apply H7. reflexivity.
  - apply H7. reflexivity.
  - apply H8. reflexivity.
  - apply H9; [reflexivity | no_such_id].
  - apply H10; [reflexivity | no_such_id].
  - apply H11; [reflexivity | no_such_id].
Defined.


(** ** Further properties of the searches and lookups *)

Lemma scan_first (before after : list Item) (node : Item) (item_id : string)
    (counter : nat) :
  (forall n, In n before -> id n <> item_id) ->
  id node = item_id ->
  scan (before ++ node :: after) item_id counter =
  (Some (mkFoundItem node (counter + length before + 1)),
   counter + length before + 1).
Proof.
  intros Hb Hid. revert counter.
  induction before as [|n before IH]; intros counter; simpl.
  - apply String.eqb_eq in Hid. rewrite Hid.
    now replace (counter + 0 + 1) with (counter + 1) by lia.
  - assert (Hn : (id n =? item_id) = false).
    { apply String.eqb_neq. apply Hb. now left. }
    rewrite Hn, IH by (intros; apply Hb; now right).
    now replace (counter + 1 + length before + 1)
      with (counter + S (length before) + 1) by lia.
Qed.

Lemma scan_first_match (nodes : list Item) (item_id : string)
    (found : FoundItem) :
  fst (scan nodes item_id 0) = Some found <->
  first_match nodes item_id found.
Proof.
  split.
  - destruct (scan nodes item_id 0) as [res c] eqn:E; simpl. intros ->.
    apply scan_some in E as (before & after & Hn & Hb & Hid & Hv & _).
    exists before, after. auto.
  - intros (before & after & -> & Hb & Hid & Hv).
    rewrite scan_first by assumption. simpl.
    destruct found as [x v]; simpl in *. now subst v.
Qed.

Lemma scan_absent (nodes : list Item) (item_id : string) (counter : nat) :
  fst (scan nodes item_id counter) = None <->
  (forall node, In node nodes -> id node <> item_id).
Proof.
  split.
  - destruct (scan nodes item_id counter) as [res c] eqn:E; simpl. intros ->.
    now apply scan_none in E.
  - intros Hall.
    destruct (scan nodes item_id counter) as [[found|] c] eqn:E;
      [| reflexivity].
    apply scan_some in E as (before & after & -> & _ & Hid & _).
    exfalso. apply (Hall (item found)); [apply in_elt | assumption].
Qed.

Lemma dfs_recursive_is_scan (items : list Item) (item_id : string)
    (order : Order) :
  get_item_by_id_dfs_recursive items item_id order =
  fst (scan (forest_nodes order items) item_id 0).
Proof.
  unfold get_item_by_id_dfs_recursive.
  rewrite dfs_recursive_counted_scan. now destruct (scan _ _ _).
Qed.

Lemma dfs_iterative_is_scan (courses : list Course) (item_id : string) :
  get_item_by_id_dfs_iterative courses item_id PreOrder =
  fst (scan (forest_nodes PreOrder (map ICourse courses)) item_id 0).
Proof.
  unfold get_item_by_id_dfs_iterative. now rewrite iterative_counted_scan.
Qed.

Lemma recursive_first (items : list Item) (item_id : string)
    (order : Order) (found : FoundItem) :
  get_item_by_id_dfs_recursive items item_id order = Some found <->
  first_match (forest_nodes order items) item_id found.
Proof. rewrite dfs_recursive_is_scan. apply scan_first_match. Qed.

Lemma iterative_first (courses : list Course) (item_id : string)
    (found : FoundItem) :
  get_item_by_id_dfs_iterative courses item_id PreOrder = Some found <->
  first_match (forest_nodes PreOrder (map ICourse courses)) item_id found.
Proof. rewrite dfs_iterative_is_scan. apply scan_first_match. Qed.

(** X1.  The recursive search returns exactly the first node, in the
    order of the traversal asked for, that carries the id, and its count
    is the position of that node in that order, counted from 1: a node
    carrying the id further on, in another tree or deeper, is never
    returned instead. *)
Theorem dfs_recursive_first_match (items : list Item) (item_id : string)
    (order : Order) (found : FoundItem) :
  get_item_by_id_dfs_recursive items item_id order = Some found <->
  first_match (forest_nodes order items) item_id found.
Proof.
  unfold get_item_by_id_dfs_recursive.
  rewrite dfs_recursive_counted_scan.
  rewrite <- scan_first_match. now destruct (scan _ _ _).
Qed.

(** X2.  The iterative search in pre-order returns exactly the first
    node in pre-order that carries the id, with its position in that
    order, counted from 1, as count. *)
Theorem dfs_iterative_first_match (courses : list Course) (item_id : string)
    (found : FoundItem) :
  get_item_by_id_dfs_iterative courses item_id PreOrder = Some found <->
  first_match (forest_nodes PreOrder (map ICourse courses)) item_id found.
Proof.
  unfold get_item_by_id_dfs_iterative.
  rewrite iterative_counted_scan. apply scan_first_match.
Qed.

(** *** Nodes of a forest, whatever the order *)

Lemma in_around (order : Order) (node x : Item) (below : list Item) :
  In x (around order node below) <-> x = node \/ In x below.
Proof.
  destruct order; simpl.
  - intuition congruence.
  - rewrite in_app_iff; simpl. intuition congruence.
Qed.

Lemma in_flat_map_iff {A B : Type} (f g : A -> list B) (l : list A) (y : B) :
  (forall x, In x l -> (In y (f x) <-> In y (g x))) ->
  (In y (flat_map f l) <-> In y (flat_map g l)).
Proof.
  intros Hfg. rewrite !in_flat_map.
  split; intros (x & Hx & Hy); exists x; (split; [assumption |]);
    now apply (Hfg x Hx).
Qed.

Lemma in_item_nodes_order (order order' : Order) (item x : Item) :
  In x (item_nodes order item) <-> In x (item_nodes order' item).
Proof.
  assert (Htask : forall task,
    In x (task_nodes order task) <-> In x (task_nodes order' task)).
  { intros task. unfold task_nodes. now rewrite !in_around. }
  assert (Hlab : forall lab,
    In x (lab_nodes order lab) <-> In x (lab_nodes order' lab)).
  { intros lab. unfold lab_nodes. rewrite !in_around.
    now rewrite (in_flat_map_iff (task_nodes order) (task_nodes order')). }
  destruct item as [course | lab | task | step]; simpl; auto; [| tauto].
  unfold course_nodes. rewrite !in_around.
  now rewrite (in_flat_map_iff (lab_nodes order) (lab_nodes order')).
Qed.

Lemma in_forest_nodes_order (order order' : Order) (items : list Item)
    (x : Item) :
  In x (forest_nodes order items) <-> In x (forest_nodes order' items).
Proof.
  unfold forest_nodes. apply in_flat_map_iff.
  intros item _. apply in_item_nodes_order.
Qed.

Lemma absent_iff_not_present (order : Order) (items : list Item)
    (item_id : string) :
  (forall node, In node (forest_nodes order items) -> id node <> item_id) <->
  ~ present item_id items.
Proof.
  unfold present. split.
  - intros Hall (node & Hin & Hid).
    apply (in_forest_nodes_order PreOrder order) in Hin.
    now apply (Hall node).
  - intros Hno node Hin Hid. apply Hno. exists node. split; [| assumption].
    now apply (in_forest_nodes_order order PreOrder).
Qed.

(** X3.  A search returns absent exactly when no node of the forest
    carries the id, in either order for the recursive search and in
    pre-order for the iterative one; it has then counted every node of
    the forest. *)
Theorem dfs_absent_iff (items : list Item) (courses : list Course)
    (item_id : string) (order : Order) :
  (get_item_by_id_dfs_recursive items item_id order = None <->
   ~ present item_id items) /\
  (get_item_by_id_dfs_iterative courses item_id PreOrder = None <->
   ~ present item_id (map ICourse courses)) /\
  (~ present item_id items ->
   get_item_by_id_dfs_recursive_counted items item_id order =
     Some (None, count_nodes items)) /\
  (~ present item_id (map ICourse courses) ->
   get_item_by_id_dfs_iterative_counted courses item_id PreOrder =
     (None, count_nodes (map ICourse courses))).
Proof.
  repeat match goal with |- _ /\ _ => split end.
  - rewrite dfs_recursive_is_scan, scan_absent.
    apply absent_iff_not_present.
  - rewrite dfs_iterative_is_scan, scan_absent.
    apply absent_iff_not_present.
  - intros Hno. rewrite dfs_recursive_counted_scan.
    pose proof (proj2 (absent_iff_not_present order _ _) Hno) as Hall.
    pose proof (proj2 (scan_absent _ _ 0) Hall) as Hscan.
    destruct (scan _ _ _) as [res c] eqn:E. simpl in Hscan. subst res.
    apply scan_none in E as [-> _]. now rewrite length_forest_nodes.
  - intros Hno. rewrite iterative_counted_scan.
    pose proof (proj2 (absent_iff_not_present PreOrder _ _) Hno) as Hall.
    pose proof (proj2 (scan_absent _ _ 0) Hall) as Hscan.
    destruct (scan _ _ _) as [res c] eqn:E. simpl in Hscan. subst res.
    apply scan_none in E as [-> _]. now rewrite length_forest_nodes.
Qed.

Lemma dfs_absent_iff_witness :
  get_item_by_id_dfs_recursive [ICourse C1] "S2" PostOrder = None /\
  get_item_by_id_dfs_iterative [C1] "S2" PreOrder = None /\
  get_item_by_id_dfs_recursive_counted [ICourse C1] "S2" PostOrder =
    Some (None, count_nodes [ICourse C1]) /\
  get_item_by_id_dfs_iterative_counted [C1] "S2" PreOrder =
    (None, count_nodes (map ICourse [C1])).
Proof.
  assert (Habsent : ~ present "S2" [ICourse C1]).
  { intros (node & Hin & Hid). simpl in Hin.
    destruct Hin as [<- | [<- | [<- | [<- | []]]]]; discriminate. }
  destruct (dfs_absent_iff [ICourse C1] [C1] "S2" PostOrder)
    as (Hrec & Hiter & Hrec_count & Hiter_count).
  split; [now apply Hrec |]. split; [now apply Hiter |].
  split; [now apply Hrec_count | now apply Hiter_count].
Defined.

Lemma NoDup_map_eq {A B : Type} (f : A -> B) (l : list A) (x y : A) :
  NoDup (map f l) -> In x l -> In y l -> f x = f y -> x = y.
Proof.
  induction l as [|a l IH]; simpl; [tauto |].
  intros Hnd. inversion Hnd as [|? ? Hnotin Hnd']; subst.
  intros [-> | Hx] [-> | Hy] Hf; auto.
  - exfalso. apply Hnotin. rewrite Hf. now apply in_map.
  - exfalso. apply Hnotin. rewrite <- Hf. now apply in_map.
Qed.

Lemma first_match_in (nodes : list Item) (item_id : string)
    (found : FoundItem) :
  first_match nodes item_id found ->
  In (item found) nodes /\ id (item found) = item_id.
Proof.
  intros (before & after & -> & _ & Hid & _). split; [apply in_elt | assumption].
Qed.

(** X4.  When no two nodes of the forest carry the same id, the
    recursive search returns the same node in pre-order and in
    post-order (the counts may differ). *)
Theorem dfs_unique_ids_same_node (items : list Item) (item_id : string)
    (pre post : FoundItem) :
  unique_ids items ->
  get_item_by_id_dfs_recursive items item_id PreOrder = Some pre ->
  get_item_by_id_dfs_recursive items item_id PostOrder = Some post ->
  item pre = item post.
Proof.
  intros Huniq Hpre Hpost.
  apply recursive_first, first_match_in in Hpre as [Hin1 Hid1].
  apply recursive_first, first_match_in in Hpost as [Hin2 Hid2].
  apply (in_forest_nodes_order PostOrder PreOrder) in Hin2.
  apply (NoDup_map_eq id _ _ _ Huniq Hin1 Hin2). congruence.
Qed.

Lemma dfs_unique_ids_same_node_witness :
  item (mkFoundItem (ITask T1) 3) = item (mkFoundItem (ITask T1) 2).
Proof.
  apply (dfs_unique_ids_same_node [ICourse C1] "T1").
  - unfold unique_ids. simpl.
    repeat (constructor; [simpl; intuition discriminate |]). constructor.
  - reflexivity.
  - reflexivity.
Defined.

(** *** Searching two forests one after the other *)

Lemma scan_from (nodes : list Item) (item_id : string) (n counter : nat) :
  scan nodes item_id (n + counter) =
  (option_map (recount n) (fst (scan nodes item_id counter)),
   n + snd (scan nodes item_id counter)).
Proof.
  revert counter. induction nodes as [|node nodes IH]; intros counter; simpl.
  - reflexivity.
  - replace (n + counter + 1) with (n + (counter + 1)) by lia.
    destruct (id node =? item_id); [reflexivity | apply IH].
Qed.

Lemma scan_app_from_0 (l1 l2 : list Item) (item_id : string) :
  fst (scan (l1 ++ l2) item_id 0) =
  match fst (scan l1 item_id 0) with
  | Some found => Some found
  | None => option_map (recount (length l1)) (fst (scan l2 item_id 0))
  end.
Proof.
  rewrite scan_app.
  destruct (scan l1 item_id 0) as [[found|] c] eqn:E; simpl; [reflexivity |].
  apply scan_none in E as [-> _]. simpl.
  replace (length l1) with (length l1 + 0) at 1 by lia.
  now rewrite scan_from.
Qed.

(** X7.  Searching two forests put end to end is searching the first
    and, when nothing is found there, the second, with the count moved
    on by the number of nodes of the first. *)
Theorem dfs_app (items1 items2 : list Item) (courses1 courses2 : list Course)
    (item_id : string) (order : Order) :
  get_item_by_id_dfs_recursive (items1 ++ items2) item_id order =
    match get_item_by_id_dfs_recursive items1 item_id order with
    | Some found => Some found
    | None =>
        option_map (recount (count_nodes items1))
          (get_item_by_id_dfs_recursive items2 item_id order)
    end /\
  get_item_by_id_dfs_iterative (courses1 ++ courses2) item_id PreOrder =
    match get_item_by_id_dfs_iterative courses1 item_id PreOrder with
    | Some found => Some found
    | None =>
        option_map (recount (count_nodes (map ICourse courses1)))
          (get_item_by_id_dfs_iterative courses2 item_id PreOrder)
    end.
Proof.
  split.
  - rewrite !dfs_recursive_is_scan. unfold forest_nodes.
    rewrite flat_map_app, scan_app_from_0.
    fold (forest_nodes order items1). now rewrite length_forest_nodes.
  - rewrite !dfs_iterative_is_scan, map_app. unfold forest_nodes.
    rewrite flat_map_app, scan_app_from_0.
    fold (forest_nodes PreOrder (map ICourse courses1)).
    now rewrite length_forest_nodes.
Qed.

(** X8.  In pre-order the entry point [get_item_by_id] returns what
    the recursive search returns on the forest loaded, for every id: the
    first node in pre-order that carries the id, and absent exactly when
    no node does.  A load that raises ends the call with the exception
    raised. *)
Theorem get_item_by_id_preorder (Exn Handle Json : Type)
    (course_items_path : string)
    (open_file : string -> Outcome Exn Handle)
    (json_load : Handle -> Outcome Exn Json)
    (validate_python : Json -> Outcome Exn (list Course))
    (item_id : string) :
  get_item_by_id course_items_path open_file json_load validate_python
    item_id PreOrder =
    match
      read_courses course_items_path open_file json_load validate_python tt
    with
    | Returned courses =>
        Returned
          (get_item_by_id_dfs_recursive (map ICourse courses) item_id
             PreOrder)
    | Raised exn => Raised exn
    end /\
  (forall (courses : list Course) (found : FoundItem),
     read_courses course_items_path open_file json_load validate_python tt =
       Returned courses ->
     (get_item_by_id course_items_path open_file json_load validate_python
        item_id PreOrder = Returned (Some found) <->
      first_match (forest_nodes PreOrder (map ICourse courses)) item_id
        found) /\
     (get_item_by_id course_items_path open_file json_load validate_python
        item_id PreOrder = Returned None <->
      ~ present item_id (map ICourse courses))).
Proof.
  unfold get_item_by_id. split.
  - destruct (read_courses _ _ _ _ tt) as [courses | exn]; [| reflexivity].
    now rewrite dfs_preorder_same.
  - intros courses found ->. split.
    + rewrite <- iterative_first. split; [now intros [=] | now intros ->].
    + rewrite <- absent_iff_not_present, <- scan_absent,
        <- dfs_iterative_is_scan.
      split; [now intros [=] | now intros ->].
Qed.

Lemma get_item_by_id_preorder_witness :
  (get_item_by_id "course_items.json"
     (fun _ => @Returned string unit tt)
     (fun _ => @Returned string (list Course) [C1])
     (fun raw => Returned raw)
     "T1" PreOrder = Returned (Some (mkFoundItem (ITask T1) 3)) <->
   first_match (forest_nodes PreOrder (map ICourse [C1])) "T1"
     (mkFoundItem (ITask T1) 3)) /\
  (get_item_by_id "course_items.json"
     (fun _ => @Returned string unit tt)
     (fun _ => @Returned string (list Course) [C1])
     (fun raw => Returned raw)
     "T1" PreOrder = Returned None <->
   ~ present "T1" (map ICourse [C1])).
Proof.
  destruct (get_item_by_id_preorder string unit (list Course)
              "course_items.json" (fun _ => Returned tt)
              (fun _ => Returned [C1]) (fun raw => Returned raw) "T1")
    as [_ Hloaded].
  apply (Hloaded [C1] (mkFoundItem (ITask T1) 3)).
  reflexivity.
Defined.

(** *** A list of steps *)

Lemma forest_nodes_steps (order : Order) (steps : list Step) :
  forest_nodes order (map IStep steps) = map IStep steps.
Proof.
  unfold forest_nodes. rewrite flat_map_map. simpl.
  apply flat_map_singleton.
Qed.

Lemma scan_steps (steps : list Step) (item_id : string) (counter : nat) :
  option_map item (fst (scan (map IStep steps) item_id counter)) =
  option_map IStep (find_by_id steps item_id).
Proof.
  revert counter. induction steps as [|step steps IH]; intros counter; simpl.
  - reflexivity.
  - change (id (IStep step)) with (id step).
    destruct (id step =? item_id); [reflexivity | apply IH].
Qed.

(** X11.  On a list of steps the recursive search finds the step
    [find_by_id] finds, and the two orders give the same result. *)
Theorem dfs_steps_is_find_by_id (steps : list Step) (item_id : string)
    (order : Order) :
  option_map item
    (get_item_by_id_dfs_recursive (map IStep steps) item_id order) =
    option_map IStep (find_by_id steps item_id) /\
  get_item_by_id_dfs_recursive (map IStep steps) item_id PreOrder =
    get_item_by_id_dfs_recursive (map IStep steps) item_id PostOrder.
Proof.
  rewrite !dfs_recursive_is_scan, !forest_nodes_steps. split.
  - apply scan_steps.
  - reflexivity.
Qed.

(** *** Path lookups *)

Lemma find_by_id_in {T : Type} `{Identifiable T} (items : list T)
    (item_id : string) (x : T) :
  find_by_id items item_id = Some x -> In x items /\ id x = item_id.
Proof.
  intros E. apply find_by_id_some in E as (before & after & -> & _ & Hid).
  split; [apply in_elt | assumption].
Qed.

Lemma find_by_id_unique {T : Type} `{Identifiable T} (items : list T)
    (x : T) :
  NoDup (map id items) -> In x items -> find_by_id items (id x) = Some x.
Proof.
  intros Hnd Hin.
  destruct (find_by_id items (id x)) as [y|] eqn:E.
  - apply find_by_id_in in E as [Hy Hid].
    f_equal. now apply (NoDup_map_eq id items).
  - rewrite find_by_id_none in E. now apply E in Hin.
Qed.

Lemma step_by_path_in (courses : list Course)
    (course_id lab_id task_id step_id : string) (step : Step) :
  get_step_by_path courses course_id lab_id task_id step_id = Some step ->
  exists course lab task,
    In course courses /\ In lab (labs course) /\ In task (tasks lab) /\
    In step (steps task) /\ id step = step_id.
Proof.
  unfold get_step_by_path, get_task_by_path, get_lab_by_path,
    get_course_by_path, get_course_by_id.
  destruct (find_by_id courses course_id) as [course|] eqn:Ec;
    [| discriminate].
  destruct (get_lab_by_id course lab_id) as [lab|] eqn:El; [| discriminate].
  destruct (get_task_by_id lab task_id) as [task|] eqn:Et; [| discriminate].
  intros Es. exists course, lab, task.
  apply find_by_id_in in Ec as [? _], El as [? _], Et as [? _], Es as [? ?].
  repeat split; assumption.
Qed.

(** X9.  A step returned by [get_step_by_path] lies at the path asked
    for: some course of the forest carries the course id, one of its labs
    the lab id, one of its tasks the task id, the step is one of its
    steps and carries the step id, and the shorter path lookups return
    that course, lab and task. *)
Theorem path_lookup_sound (courses : list Course)
    (course_id lab_id task_id step_id : string) (step : Step) :
  get_step_by_path courses course_id lab_id task_id step_id = Some step ->
  exists course lab task,
    get_course_by_path courses course_id = Some course /\
    get_lab_by_path courses course_id lab_id = Some lab /\
    get_task_by_path courses course_id lab_id task_id = Some task /\
    In course courses /\ id course = course_id /\
    In lab (labs course) /\ id lab = lab_id /\
    In task (tasks lab) /\ id task = task_id /\
    In step (steps task) /\ id step = step_id.
Proof.
  unfold get_step_by_path, get_task_by_path, get_lab_by_path,
    get_course_by_path, get_course_by_id.
  destruct (find_by_id courses course_id) as [course|] eqn:Ec;
    [| discriminate].
  destruct (get_lab_by_id course lab_id) as [lab|] eqn:El; [| discriminate].
  destruct (get_task_by_id lab task_id) as [task|] eqn:Et; [| discriminate].
  intros Es. exists course, lab, task.
  apply find_by_id_in in Ec as [? ?], El as [? ?], Et as [? ?], Es as [? ?].
  repeat split; assumption.
Qed.

(** X10.  When ids are unique among siblings, looking up the ids along
    the path of a node returns that node, at every level. *)
Theorem path_lookup_round_trip (courses : list Course) (course : Course)
    (lab : Lab) (task : Task) (step : Step) :
  NoDup (map id courses) -> In course courses ->
  NoDup (map id (labs course)) -> In lab (labs course) ->
  NoDup (map id (tasks lab)) -> In task (tasks lab) ->
  NoDup (map id (steps task)) -> In step (steps task) ->
  get_course_by_path courses (id course) = Some course /\
  get_lab_by_path courses (id course) (id lab) = Some lab /\
  get_task_by_path courses (id course) (id lab) (id task) = Some task /\
  get_step_by_path courses (id course) (id lab) (id task) (id step) =
    Some step.
Proof.
  intros Hc Hic Hl Hil Ht Hit Hs His.
  unfold get_step_by_path, get_task_by_path, get_lab_by_path,
    get_course_by_path, get_course_by_id.
  rewrite (find_by_id_unique courses course Hc Hic).
  unfold get_lab_by_id. rewrite (find_by_id_unique _ lab Hl Hil).
  unfold get_task_by_id. rewrite (find_by_id_unique _ task Ht Hit).
  unfold get_step_by_id. rewrite (find_by_id_unique _ step Hs His).
  auto.
Qed.

Lemma step_in_forest (order : Order) (courses : list Course) (course : Course)
    (lab : Lab) (task : Task) (step : Step) :
  In course courses -> In lab (labs course) -> In task (tasks lab) ->
  In step (steps task) ->
  In (IStep step) (forest_nodes order (map ICourse courses)).
Proof.
  intros Hc Hl Ht Hs. unfold forest_nodes.
  rewrite flat_map_map. apply in_flat_map. exists course. split; [assumption |].
  simpl. unfold course_nodes. apply in_around. right.
  apply in_flat_map. exists lab. split; [assumption |].
  unfold lab_nodes. apply in_around. right.
  apply in_flat_map. exists task. split; [assumption |].
  unfold task_nodes. apply in_around. right. now apply in_map.
Qed.

(** X12.  A step a path lookup returns is found by the full-tree
    searches: searching for its id returns a node with that id, and the
    step itself when no two nodes of the forest carry the same id. *)
Theorem path_lookup_found_by_dfs (courses : list Course)
    (course_id lab_id task_id step_id : string) (step : Step)
    (order : Order) :
  get_step_by_path courses course_id lab_id task_id step_id = Some step ->
  (exists found,
     get_item_by_id_dfs_recursive (map ICourse courses) step_id order =
       Some found /\
     id (item found) = step_id) /\
  (exists found,
     get_item_by_id_dfs_iterative courses step_id PreOrder = Some found /\
     id (item found) = step_id) /\
  (unique_ids (map ICourse courses) ->
   option_map item
     (get_item_by_id_dfs_recursive (map ICourse courses) step_id order) =
     Some (IStep step) /\
   option_map item
     (get_item_by_id_dfs_iterative courses step_id PreOrder) =
     Some (IStep step)).
Proof.
  intros Hpath.
  apply step_by_path_in in Hpath
    as (course & lab & task & Hc & Hl & Ht & Hs & Hid).
  assert (Hin : forall o,
    In (IStep step) (forest_nodes o (map ICourse courses))).
  { intros o. now apply (step_in_forest o courses course lab task). }
  assert (Hfound : forall o found,
    first_match (forest_nodes o (map ICourse courses)) step_id found ->
    id (item found) = step_id /\
    (unique_ids (map ICourse courses) -> item found = IStep step)).
  { intros o found Hfm. apply first_match_in in Hfm as [Hf Hfid].
    split; [assumption |]. intros Huniq.
    apply (in_forest_nodes_order o PreOrder) in Hf.
    apply (NoDup_map_eq id _ _ _ Huniq Hf (Hin PreOrder)).
    rewrite Hfid. now rewrite <- Hid. }
  destruct (get_item_by_id_dfs_recursive (map ICourse courses) step_id order)
    as [found|] eqn:E.
  2: { exfalso. rewrite dfs_recursive_is_scan, scan_absent in E.
       now apply (E (IStep step) (Hin order)). }
  destruct (get_item_by_id_dfs_iterative courses step_id PreOrder)
    as [found'|] eqn:E'.
  2: { exfalso. rewrite dfs_iterative_is_scan, scan_absent in E'.
       now apply (E' (IStep step) (Hin PreOrder)). }
  apply recursive_first, Hfound in E as [Hid1 Hu1].
  apply iterative_first, Hfound in E' as [Hid2 Hu2].
  split; [now exists found |]. split; [now exists found' |].
  intros Huniq. simpl. now rewrite Hu1, Hu2.
Qed.

(** *** A node and the nodes below it *)

Lemma flat_map_elt {A B : Type} (f : A -> list B) (xs : list A)
    (before after : list B) (y : B) :
  flat_map f xs = before ++ y :: after ->
  exists xs1 x xs2 b a,
    xs = xs1 ++ x :: xs2 /\
    f x = b ++ y :: a /\
    before = flat_map f xs1 ++ b /\
    after = a ++ flat_map f xs2.
Proof.
  revert before. induction xs as [|x xs IH]; intros before E; simpl in E.
  - now destruct before.
  - apply app_eq_app in E as [l [[Hfx Hrest] | [Hb Hrest]]].
    + destruct l as [|z l]; simpl in Hrest.
      * rewrite app_nil_r in Hfx.
        destruct (IH [] (eq_sym Hrest))
          as (xs1 & x' & xs2 & b & a & Hxs & Hf & Hnil & Ha).
        exists (x :: xs1), x', xs2, b, a. simpl.
        repeat split; try assumption.
        -- now rewrite Hxs.
        -- now rewrite <- app_assoc, <- Hnil, app_nil_r.
      * inversion Hrest; subst z after.
        exists [], x, xs, before, l. simpl. repeat split; auto.
    + destruct (IH l Hrest)
        as (xs1 & x' & xs2 & b & a & Hxs & Hf & Hl & Ha).
      exists (x :: xs1), x', xs2, b, a. simpl.
      repeat split; try assumption.
      -- now rewrite Hxs.
      -- now rewrite Hb, Hl, app_assoc.
Qed.

(** Wherever a node stands in the order of a traversal, the nodes below
    it stand right after it in pre-order, and right before it in
    post-order. *)
Lemma below_stands_next (order : Order) (n : nat) :
  forall (items : list Item) (before after : list Item) (x : Item),
    (forall item, In item items -> rank item <= n) ->
    forest_nodes order items = before ++ x :: after ->
    match order with
    | PreOrder =>
        exists rest, after = forest_nodes PreOrder (children x) ++ rest
    | PostOrder =>
        exists rest, before = rest ++ forest_nodes PostOrder (children x)
    end.
Proof.
  induction n as [|n IH]; intros items before after x Hrank E.
  - destruct items as [|item items].
    + now destruct before.
    + specialize (Hrank item (or_introl eq_refl)). destruct item; simpl in *; lia.
  - apply flat_map_elt in E
      as (xs1 & y & xs2 & b & a & -> & Hy & -> & ->).
    assert (Hbelow : forall child, In child (children y) -> rank child <= n).
    { intros child Hin. apply rank_children in Hin.
      specialize (Hrank y (in_elt y xs1 xs2)). lia. }
    rewrite item_nodes_children in Hy.
    destruct order; simpl in Hy.
    + destruct b as [|z b]; simpl in Hy; inversion Hy; subst.
      * exists (flat_map (item_nodes PreOrder) xs2). reflexivity.
      * destruct (IH _ _ _ _ Hbelow H1) as [rest ->].
        exists (rest ++ flat_map (item_nodes PreOrder) xs2).
        now rewrite app_assoc.
    + destruct (app_eq_app _ _ _ _ Hy) as [l [[Hc Hl] | [Hb Hl]]].
      * destruct l as [|z l]; simpl in Hl.
        -- inversion Hl; subst. rewrite app_nil_r in Hc. rewrite Hc.
           exists (flat_map (item_nodes PostOrder) xs1). reflexivity.
        -- inversion Hl; subst z.
           destruct (IH _ _ _ _ Hbelow Hc) as [rest ->].
           exists (flat_map (item_nodes PostOrder) xs1 ++ rest).
           now rewrite app_assoc.
      * destruct l as [|z l]; simpl in Hl.
        -- inversion Hl; subst. rewrite app_nil_r.
           exists (flat_map (item_nodes PostOrder) xs1). reflexivity.
        -- inversion Hl as [[Hz Hnil]]. now destruct l.
Qed.

Lemma count_item_children (item : Item) :
  count_item item = 1 + count_nodes (children item).
Proof.
  rewrite <- (length_item_nodes PreOrder), item_nodes_children.
  now rewrite length_around, length_forest_nodes.
Qed.

(** X5.  In post-order the node returned is counted after all the
    nodes below it: none of them carries the id, and the count is at
    least the number of nodes of the subtree of the node returned. *)
Theorem dfs_postorder_below_first (items : list Item) (item_id : string)
    (found : FoundItem) :
  get_item_by_id_dfs_recursive items item_id PostOrder = Some found ->
  (forall node,
     In node (forest_nodes PostOrder (children (item found))) ->
     id node <> item_id) /\
  count_item (item found) <= visited_nodes found.
Proof.
  intros Hfound.
  apply recursive_first in Hfound
    as (before & after & Hnodes & Hbefore & _ & Hcount).
  apply (below_stands_next PostOrder max_depth) in Hnodes as [rest ->];
    [| intros; apply rank_le_max_depth].
  split.
  - intros node Hin. apply Hbefore. apply in_or_app. now right.
  - rewrite count_item_children, Hcount, length_app, length_forest_nodes. lia.
Qed.

Lemma dfs_postorder_below_first_witness :
  (forall node,
     In node (forest_nodes PostOrder
                (children (item (mkFoundItem (ILab L1) 3)))) ->
     id node <> "L1") /\
  count_item (item (mkFoundItem (ILab L1) 3)) <=
    visited_nodes (mkFoundItem (ILab L1) 3).
Proof.
  apply (dfs_postorder_below_first [ICourse C1] "L1").
  reflexivity.
Defined.

(** X6.  In pre-order the node returned is counted before the nodes
    below it: its count plus the number of nodes below it is at most the
    number of nodes of the forest, for the recursive and the iterative
    search. *)
Theorem dfs_preorder_below_after (items : list Item) (courses : list Course)
    (item_id : string) (found : FoundItem) :
  (get_item_by_id_dfs_recursive items item_id PreOrder = Some found ->
   visited_nodes found + count_nodes (children (item found)) <=
     count_nodes items) /\
  (get_item_by_id_dfs_iterative courses item_id PreOrder = Some found ->
   visited_nodes found + count_nodes (children (item found)) <=
     count_nodes (map ICourse courses)).
Proof.
  assert (H : forall forest,
    first_match (forest_nodes PreOrder forest) item_id found ->
    visited_nodes found + count_nodes (children (item found)) <=
      count_nodes forest).
  { intros forest (before & after & Hnodes & _ & _ & Hcount).
    pose proof Hnodes as Hsplit.
    apply (below_stands_next PreOrder max_depth) in Hsplit as [rest ->];
      [| intros; apply rank_le_max_depth].
    apply (f_equal (@length Item)) in Hnodes.
    rewrite length_forest_nodes, length_app in Hnodes. simpl in Hnodes.
    rewrite length_app, length_forest_nodes in Hnodes. lia. }
  split; intros Hfound; apply H.
  - now apply recursive_first.
  - now apply iterative_first.
Qed.

Lemma dfs_preorder_below_after_witness :
  visited_nodes (mkFoundItem (ILab L1) 2) +
    count_nodes (children (item (mkFoundItem (ILab L1) 2))) <=
    count_nodes [ICourse C1] /\
  visited_nodes (mkFoundItem (ILab L1) 2) +
    count_nodes (children (item (mkFoundItem (ILab L1) 2))) <=
    count_nodes (map ICourse [C1]).
Proof.
  split.
  - apply (dfs_preorder_below_after [ICourse C1] [] "L1"). reflexivity.
  - apply (dfs_preorder_below_after [] [C1] "L1"). reflexivity.
Defined.

Lemma path_lookup_sound_witness :
  exists course lab task,
    get_course_by_path [C1] "C1" = Some course /\
    get_lab_by_path [C1] "C1" "L1" = Some lab /\
    get_task_by_path [C1] "C1" "L1" "T1" = Some task /\
    In course [C1] /\ id course = "C1" /\
    In lab (labs course) /\ id lab = "L1" /\
    In task (tasks lab) /\ id task = "T1" /\
    In S1 (steps task) /\ id S1 = "S1".
Proof.
  apply (path_lookup_sound [C1] "C1" "L1" "T1" "S1" S1). reflexivity.
Defined.

Lemma path_lookup_round_trip_witness :
  get_course_by_path [C1] (id C1) = Some C1 /\
  get_lab_by_path [C1] (id C1) (id L1) = Some L1 /\
  get_task_by_path [C1] (id C1) (id L1) (id T1) = Some T1 /\
  get_step_by_path [C1] (id C1) (id L1) (id T1) (id S1) = Some S1.
Proof.
  apply (path_lookup_round_trip [C1] C1 L1 T1 S1);
    try (simpl; tauto);
    simpl; (constructor; [simpl; tauto | constructor]).
Defined.

Lemma path_lookup_found_by_dfs_witness :
  (exists found,
     get_item_by_id_dfs_recursive (map ICourse [C1]) "S1" PostOrder =
       Some found /\
     id (item found) = "S1") /\
  (exists found,
     get_item_by_id_dfs_iterative [C1] "S1" PreOrder = Some found /\
     id (item found) = "S1") /\
  option_map item
    (get_item_by_id_dfs_recursive (map ICourse [C1]) "S1" PostOrder) =
    Some (IStep S1) /\
  option_map item (get_item_by_id_dfs_iterative [C1] "S1" PreOrder) =
    Some (IStep S1).
Proof.
  destruct (path_lookup_found_by_dfs [C1] "C1" "L1" "T1" "S1" S1 PostOrder)
    as (Hrec & Hiter & Huniq); [reflexivity |].
  split; [exact Hrec |]. split; [exact Hiter |].
  apply Huniq. unfold unique_ids. simpl.
  repeat (constructor; [simpl; intuition discriminate |]). constructor.
Defined.

(** *** The count at which a course is found *)

Lemma forest_nodes_app (order : Order) (items1 items2 : list Item) :
  forest_nodes order (items1 ++ items2) =
  forest_nodes order items1 ++ forest_nodes order items2.
Proof. apply flat_map_app. Qed.

(** X13.  When no node of the courses before it carries its id, a
    course is found on its own id with count one more than the number of
    nodes before it in pre-order, and, when no node below it carries the
    id either, with count the number of nodes before it plus the number
    of nodes of its own subtree in post-order. *)
Theorem dfs_course_count (before after : list Course) (course : Course) :
  ~ present (id course) (map ICourse before) ->
  get_item_by_id_dfs_recursive (map ICourse (before ++ course :: after))
    (id course) PreOrder =
    Some (mkFoundItem (ICourse course)
            (count_nodes (map ICourse before) + 1)) /\
  get_item_by_id_dfs_iterative (before ++ course :: after) (id course)
    PreOrder =
    Some (mkFoundItem (ICourse course)
            (count_nodes (map ICourse before) + 1)) /\
  (~ present (id course) (children (ICourse course)) ->
   get_item_by_id_dfs_recursive (map ICourse (before ++ course :: after))
     (id course) PostOrder =
     Some (mkFoundItem (ICourse course)
             (count_nodes (map ICourse before) + count_course course))).
Proof.
  intros Hbefore.
  assert (Hnodes : forall order,
    forest_nodes order (map ICourse (before ++ course :: after)) =
    forest_nodes order (map ICourse before) ++
    around order (ICourse course) (forest_nodes order (children (ICourse course)))
    ++ forest_nodes order (map ICourse after)).
  { intros order. rewrite map_app, forest_nodes_app. f_equal.
    change (map ICourse (course :: after))
      with ([ICourse course] ++ map ICourse after).
    rewrite forest_nodes_app. f_equal.
    unfold forest_nodes at 1. simpl flat_map. rewrite app_nil_r.
    apply (item_nodes_children order (ICourse course)). }
  assert (Hpre : first_match
            (forest_nodes PreOrder (map ICourse (before ++ course :: after)))
            (id course)
            (mkFoundItem (ICourse course)
               (count_nodes (map ICourse before) + 1))).
  { exists (forest_nodes PreOrder (map ICourse before)).
    eexists. split; [rewrite Hnodes; reflexivity |].
    split; [now apply absent_iff_not_present |].
    split; [reflexivity |]. simpl. now rewrite length_forest_nodes. }
  repeat split.
  - now apply recursive_first.
  - now apply iterative_first.
  - intros Hbelow. apply recursive_first.
    exists (forest_nodes PostOrder (map ICourse before) ++
            forest_nodes PostOrder (children (ICourse course))).
    exists (forest_nodes PostOrder (map ICourse after)).
    split; [rewrite Hnodes; simpl; now rewrite <- !app_assoc |].
    split.
    { intros node Hin. apply in_app_or in Hin as [Hin | Hin];
        revert node Hin; now apply absent_iff_not_present. }
    split; [reflexivity |]. cbn [item visited_nodes].
    rewrite length_app, !length_forest_nodes.
    change (count_course course) with (count_item (ICourse course)).
    rewrite count_item_children. lia.
Qed.

Lemma dfs_course_count_witness :
  get_item_by_id_dfs_recursive
    (map ICourse ([mkCourse "C0" [mkLab "L0" []]] ++ C1 :: []))
    (id C1) PreOrder =
    Some (mkFoundItem (ICourse C1)
            (count_nodes (map ICourse [mkCourse "C0" [mkLab "L0" []]]) + 1)) /\
  get_item_by_id_dfs_iterative
    ([mkCourse "C0" [mkLab "L0" []]] ++ C1 :: []) (id C1) PreOrder =
    Some (mkFoundItem (ICourse C1)
            (count_nodes (map ICourse [mkCourse "C0" [mkLab "L0" []]]) + 1)) /\
  get_item_by_id_dfs_recursive
    (map ICourse ([mkCourse "C0" [mkLab "L0" []]] ++ C1 :: []))
    (id C1) PostOrder =
    Some (mkFoundItem (ICourse C1)
            (count_nodes (map ICourse [mkCourse "C0" [mkLab "L0" []]]) +
             count_course C1)).
Proof.
  destruct (dfs_course_count [mkCourse "C0" [mkLab "L0" []]] [] C1)
    as (Hpre & Hiter & Hpost).
  { intros (node & Hin & Hid). simpl in Hin.
    destruct Hin as [<- | [<- | []]]; discriminate. }
  split; [exact Hpre |]. split; [exact Hiter |].
  apply Hpost.
  intros (node & Hin & Hid). simpl in Hin.
  destruct Hin as [<- | [<- | [<- | []]]]; discriminate.
Defined.

(** *** The scan of [find_by_id] *)

(** X14.  [find_by_id] is the library's [find] with the test of the
    id, and on two lists put end to end it returns the match of the
    first when there is one, the match of the second otherwise. *)
Theorem find_by_id_find_app {T : Type} `{Identifiable T}
    (items1 items2 : list T) (item_id : string) :
  find_by_id items1 item_id =
    List.find (fun item => id item =? item_id) items1 /\
  find_by_id (items1 ++ items2) item_id =
    match find_by_id items1 item_id with
    | Some item => Some item
    | None => find_by_id items2 item_id
    end.
Proof.
  split.
  - induction items1 as [|item items1 IH]; simpl; [reflexivity |].
    now rewrite IH.
  - induction items1 as [|item items1 IH]; simpl; [reflexivity |].
    now destruct (id item =? item_id).
Qed.
